(** * Sentiment benchmark harness: label normalisation, latency statistics,
      accuracy scoring and per-model failure isolation.

    A shallow embedding of [benchmark/benchmark.py] and of the two helpers
    [_normalize] and [_get_pipeline] of [benchmark/benchmark_ui.py].

    Conventions of the embedding.
    - A Python [str] is a [string]; each [ascii] stands for one code point
      below 256, and [isspace], [lower] and [strip] are the built-ins
      restricted to that range.
    - A Python [float] holding a finite value is a rational [Q]; arithmetic
      is exact.  No property below depends on rounding; the one place where
      the source truncates a float product to an index is cross-checked
      against IEEE binary64 in [Binary64Check].
    - The inference library, the clock and the console are the outside
      world: a pipeline that may fail to load, inference calls that may
      raise, a clock that is read, and lines that are printed.  They are
      oracles and a state that is threaded through the program. *)

From Stdlib Require Import Bool Arith Lia List NArith ZArith QArith Qround Lqa.
From Stdlib Require Import Strings.Ascii Strings.String Floats.SpecFloat.
From Stdlib Require Import Numbers.DecimalString.
From Stdlib Require Import Sorting.Sorted Sorting.Permutation.
Import ListNotations.

Close Scope Q_scope.
Local Open Scope string_scope.
Local Open Scope list_scope.
Local Open Scope nat_scope.

(** ** Python strings *)

Module PyStr.

(** [str.isspace] for one code point below 256. *)
Definition isspace (c : ascii) : bool :=
  let n := nat_of_ascii c in
  ((9 <=? n) && (n <=? 13)) || ((28 <=? n) && (n <=? 32))
  || (n =? 133) || (n =? 160).

(** [str.lower] for one code point below 256: A-Z and the upper-case
    Latin-1 letters (all of 0xC0-0xDE but the multiplication sign). *)
Definition lower_char (c : ascii) : ascii :=
  let n := nat_of_ascii c in
  if ((65 <=? n) && (n <=? 90))
     || ((192 <=? n) && (n <=? 222) && negb (n =? 215))
  then ascii_of_nat (n + 32) else c.

Fixpoint lower (s : string) : string :=
  match s with
  | EmptyString => EmptyString
  | String c s' => String (lower_char c) (lower s')
  end.

Fixpoint lstrip (s : string) : string :=
  match s with
  | EmptyString => EmptyString
  | String c s' => if isspace c then lstrip s' else s
  end.

Fixpoint rstrip (s : string) : string :=
  match s with
  | EmptyString => EmptyString
  | String c s' =>
      match rstrip s' with
      | EmptyString => if isspace c then EmptyString else String c EmptyString
      | r => String c r
      end
  end.

(** [s.strip()] *)
Definition strip (s : string) : string := rstrip (lstrip s).

(** [t in {k1, k2, ...}] for a set display of string literals. *)
Definition str_in (t : string) (keys : list string) : bool :=
  existsb (String.eqb t) keys.

(** [s.replace(old, new)] for a one-character [old]. *)
Fixpoint replace_char (old : ascii) (new : string) (s : string) : string :=
  match s with
  | EmptyString => EmptyString
  | String c s' =>
      if Ascii.eqb c old then new ++ replace_char old new s'
      else String c (replace_char old new s')
  end.

(** A string made of white space only. *)
Fixpoint all_space (s : string) : bool :=
  match s with
  | EmptyString => true
  | String c s' => isspace c && all_space s'
  end.

End PyStr.

(** ** Python values, exceptions and built-ins *)

Module Py.

(** The exceptions the harness can meet.  All but [KeyboardInterrupt]
    derive from [Exception]; [LibraryError] stands for whatever the
    inference library raises, with its message. *)
Inductive exn : Type :=
| StatisticsError
| ValueError
| ZeroDivisionError
| IndexError
| UnboundLocalError
| LibraryError (msg : string)
| KeyboardInterrupt.

(** [isinstance(e, Exception)] *)
Definition is_Exception (e : exn) : bool :=
  match e with
  | KeyboardInterrupt => false
  | _ => true
  end.

Inductive res (A : Type) : Type :=
| Ok (a : A)
| Raise (e : exn).
Arguments Ok {A} a.
Arguments Raise {A} e.

Definition bind_res {A B} (r : res A) (k : A -> res B) : res B :=
  match r with
  | Ok a => k a
  | Raise e => Raise e
  end.

(** [x < y] on floats *)
Definition Qltb (x y : Q) : bool := negb (Qle_bool y x).

(** [int(x)] on a float: truncation towards zero. *)
Definition int (x : Q) : Z := Z.quot (Qnum x) (Zpos (Qden x)).

(** [l[i]] with Python's negative indices. *)
Definition getitem {A} (l : list A) (i : Z) : res A :=
  let n := Z.of_nat (List.length l) in
  let j := if (i <? 0)%Z then (n + i)%Z else i in
  if (j <? 0)%Z then Raise IndexError
  else match nth_error l (Z.to_nat j) with
       | Some a => Ok a
       | None => Raise IndexError
       end.

(** [sorted(l)]: a stable sort that compares with [<] only. *)
Fixpoint insert (x : Q) (l : list Q) : list Q :=
  match l with
  | [] => [x]
  | y :: l' => if Qltb y x then y :: insert x l' else x :: l
  end.

Fixpoint sorted (l : list Q) : list Q :=
  match l with
  | [] => []
  | x :: l' => insert x (sorted l')
  end.

(** [min(l)] and [max(l)]: the first smallest (largest) item; [ValueError]
    on an empty list. *)
Definition py_min (l : list Q) : res Q :=
  match l with
  | [] => Raise ValueError
  | x :: l' => Ok (fold_left (fun cur item => if Qltb item cur then item else cur) l' x)
  end.

Definition py_max (l : list Q) : res Q :=
  match l with
  | [] => Raise ValueError
  | x :: l' => Ok (fold_left (fun cur item => if Qltb cur item then item else cur) l' x)
  end.

Definition fsum (l : list Q) : Q := fold_left Qplus l (Qmake 0 1).

(** [statistics.mean(l)] *)
Definition mean (l : list Q) : res Q :=
  match l with
  | [] => Raise StatisticsError
  | _ => Ok (Qdiv (fsum l) (inject_Z (Z.of_nat (List.length l))))
  end.

(** [statistics.median(l)] *)
Definition median (l : list Q) : res Q :=
  let data := sorted l in
  let n := List.length data in
  if n =? 0 then Raise StatisticsError
  else if n mod 2 =? 1 then getitem data (Z.of_nat (n / 2))
  else
    let i := n / 2 in
    bind_res (getitem data (Z.of_nat i - 1)) (fun a =>
    bind_res (getitem data (Z.of_nat i)) (fun b =>
    Ok (Qdiv (Qplus a b) (Qmake 2 1)))).

(** [a / b] on two ints *)
Definition truediv (a b : nat) : res Q :=
  if b =? 0 then Raise ZeroDivisionError
  else Ok (Qdiv (inject_Z (Z.of_nat a)) (inject_Z (Z.of_nat b))).

End Py.

(** ** The outside world: inference library, clock and console *)

Module World.
Import Py.

(** One item of what a pipeline call returns: [{'label': ..., 'score': ...}]. *)
Record raw_prediction : Type := mkRaw {
  label : option string;
  score : Q
}.

(** A pipeline object; it is known by the model it was built for. *)
Definition classifier : Type := string.

(** What the outside world answers.
    - [load m]: [pipeline("sentiment-analysis", model=m, device=-1)]
      raises [e] when [load m = Some e]; whether a model loads depends on
      the model only.
    - [infer k m text]: the result of the inference call number [k] of the
      process (counting from 0), made on the pipeline of [m] with [text].
    - [perf k]: the value of reading number [k] of [time.perf_counter()]. *)
Record world : Type := mkWorld {
  load : string -> option exn;
  infer : nat -> string -> string -> res (list raw_prediction);
  perf : nat -> Q
}.

Inductive event : Type :=
| EvPipeline (model : string)
| EvCall (model text : string)
| EvPerfCounter.

(** A printed line, with the values interpolated into it.  The
    formatting of numbers and the blank lines printed around the fixed
    texts are left to the console. *)
Inductive line : Type :=
| Loading (model_id : string)
| Failed (model_id : string) (e : exn)
| Plain (text : string)
| SamplesLine (samples runs : nat)
| SummaryRow (pretty : string) (avg med p95 mn mx acc_pct : Q)
| DetailRow (pretty safe_text expected pred : string) (conf : Q).

(** The state of the process: how often the clock was read, how many
    inference calls were made, what happened (oldest first), what was
    printed (oldest first), and the UI's pipeline cache. *)
Record state : Type := mkState {
  reads : nat;
  calls : nat;
  log : list event;
  stdout : list line;
  _PIPELINES : list (string * classifier)
}.

Definition initial : state := mkState 0 0 [] [] [].

(** Computations that read and change the state and may raise; the state
    reached when an exception is raised is kept. *)
Definition M (A : Type) : Type := state -> res A * state.

Definition ret {A} (a : A) : M A := fun st => (Ok a, st).

Definition raise {A} (e : exn) : M A := fun st => (Raise e, st).

Definition bind {A B} (c : M A) (k : A -> M B) : M B :=
  fun st =>
    match c st with
    | (Ok a, st') => k a st'
    | (Raise e, st') => (Raise e, st')
    end.

Definition lift {A} (r : res A) : M A := fun st => (r, st).

(** [try: body except Exception as e: handler(e)] *)
Definition try_except {A} (body : M A) (handler : exn -> M A) : M A :=
  fun st =>
    match body st with
    | (Ok a, st') => (Ok a, st')
    | (Raise e, st') =>
        if is_Exception e then handler e st' else (Raise e, st')
    end.

(** [for x in xs: acc = body(x, acc)] *)
Fixpoint for_each {A S} (xs : list A) (body : A -> S -> M S) (acc : S) : M S :=
  match xs with
  | [] => ret acc
  | x :: xs' => bind (body x acc) (for_each xs' body)
  end.

(** [for _ in range(n): acc = body(acc)] *)
Fixpoint for_range {S} (n : nat) (body : S -> M S) (acc : S) : M S :=
  match n with
  | O => ret acc
  | S n' => bind (body acc) (for_range n' body)
  end.

Section Primitives.
Variable w : world.

(** [pipeline("sentiment-analysis", model=m, device=-1)] *)
Definition pipeline (m : string) : M classifier :=
  fun st =>
    let st' := mkState (reads st) (calls st) (log st ++ [EvPipeline m])
                       (stdout st) (_PIPELINES st) in
    match load w m with
    | Some e => (Raise e, st')
    | None => (Ok m, st')
    end.

(** [clf(text)] *)
Definition call (clf : classifier) (text : string) : M (list raw_prediction) :=
  fun st =>
    (infer w (calls st) clf text,
     mkState (reads st) (S (calls st)) (log st ++ [EvCall clf text])
             (stdout st) (_PIPELINES st)).

(** [time.perf_counter()] *)
Definition perf_counter : M Q :=
  fun st =>
    (Ok (perf w (reads st)),
     mkState (S (reads st)) (calls st) (log st ++ [EvPerfCounter])
             (stdout st) (_PIPELINES st)).

End Primitives.

(** [print(...)] *)
Definition print (l : line) : M unit :=
  fun st =>
    (Ok tt, mkState (reads st) (calls st) (log st) (stdout st ++ [l])
                    (_PIPELINES st)).

End World.

Declare Scope py_scope.
Delimit Scope py_scope with py.
Notation "x <- c ;; k" := (World.bind c (fun x => k))
  (at level 61, c at next level, right associativity) : py_scope.
Notation "c ;;; k" := (World.bind c (fun _ => k))
  (at level 61, right associativity) : py_scope.

(** ** The benchmark harness, [benchmark/benchmark.py] *)

Module Benchmark.
Import PyStr Py World.

(** [normalize_label(raw_label)]; [None] is Python's [None]. *)
Definition normalize_label (raw_label : option string) : string :=
  match raw_label with
  | None => "unknown"
  | Some raw =>
      let t := lower (strip raw) in
      if str_in t ["positive"; "pos"; "label_1"; "1"] then "positive"
      else if str_in t ["negative"; "neg"; "label_0"; "0"] then "negative"
      else if str_in t ["neutral"] then "negative"
      else t
  end.

(** The module-level configuration of [benchmark.py]. *)
Record config : Type := mkConfig {
  MODELS : list (string * string);
  SAMPLES : list (string * string);
  RUNS_PER_SAMPLE : nat
}.

Definition shipped : config := {|
  MODELS :=
    [ ("distilbert-base-uncased-finetuned-sst-2-english", "DistilBERT SST-2 (HF)");
      ("textattack/distilbert-base-uncased-SST-2", "TextAttack DistilBERT SST-2");
      ("textattack/albert-base-v2-SST-2", "TextAttack ALBERT v2 SST-2") ];
  SAMPLES :=
    [ ("I absolutely love this!", "positive");
      ("This is the best thing ever.", "positive");
      ("Not bad at all, pretty good.", "positive");
      ("I hated the experience.", "negative");
      ("This is terrible and disappointing.", "negative");
      ("I wouldn't recommend it.", "negative");
      ("It's okay, nothing special.", "negative");
      ("I am pleasantly surprised.", "positive") ];
  RUNS_PER_SAMPLE := 3
|}.

(** [p95(values)] *)
Definition p95 (values : list Q) : res Q :=
  match values with
  | [] => Ok (Qmake 0 1)
  | _ =>
      let vals := sorted values in
      let idx := int (Qmult (Qmake 95 100)
                            (inject_Z (Z.of_nat (List.length vals) - 1))) in
      getitem vals idx
  end.

(** One entry of [preds]: (text, expected, predicted, confidence). *)
Definition prediction : Type := (string * string * string * Q)%type.

(** The dictionary [run_one] returns. *)
Record metrics : Type := mkMetrics {
  avg_ms : Q;
  min_ms : Q;
  max_ms : Q;
  med_ms : Q;
  p95_ms : Q;
  acc : Q;
  preds : list prediction;
  num_samples : nat;
  runs_per_sample : nat
}.

(** The local variables of [run_one] that its loops assign; [out] is
    unbound until the first timed call returns, and [preds_so_far] is the
    list [preds] while it is built. *)
Record locals : Type := mkLocals {
  out : option raw_prediction;
  latencies_ms : list Q;
  correct : nat;
  preds_so_far : list prediction
}.

Section Harness.
Variable w : world.
Variable cfg : config.

Local Open Scope py_scope.

(** The body of [for _ in range(RUNS_PER_SAMPLE)]. *)
Definition timed_call (clf : classifier) (text : string) (v : locals) : M locals :=
  t0 <- perf_counter w ;;
  outs <- call w clf text ;;
  o <- lift (getitem outs 0) ;;
  t1 <- perf_counter w ;;
  let dt_ms := Qmult (Qminus t1 t0) (Qmake 1000 1) in
  ret (mkLocals (Some o) (latencies_ms v ++ [dt_ms]) (correct v) (preds_so_far v)).

(** The body of [for text, expected in SAMPLES]. *)
Definition score_sample (clf : classifier) (sample : string * string) (v : locals)
  : M locals :=
  let '(text, expected) := sample in
  v1 <- for_range (RUNS_PER_SAMPLE cfg) (timed_call clf text) v ;;
  o <- match out v1 with
       | Some o => ret o
       | None => raise UnboundLocalError
       end ;;
  let pred_label := normalize_label (label o) in
  let conf := score o in
  let preds' := preds_so_far v1 ++ [(text, expected, pred_label, conf)] in
  let correct' := if String.eqb pred_label expected then correct v1 + 1
                  else correct v1 in
  ret (mkLocals (out v1) (latencies_ms v1) correct' preds').

(** [run_one] up to the end of its loops. *)
Definition measure (model_name : string) : M locals :=
  clf <- pipeline w model_name ;;
  _ <- call w clf "warmup" ;;
  for_each (SAMPLES cfg) (score_sample clf) (mkLocals None [] 0 []).

(** The dictionary display at the end of [run_one]. *)
Definition summarise (v : locals) : res metrics :=
  let n := List.length (SAMPLES cfg) in
  bind_res (mean (latencies_ms v)) (fun avg =>
  bind_res (py_min (latencies_ms v)) (fun mn =>
  bind_res (py_max (latencies_ms v)) (fun mx =>
  bind_res (median (latencies_ms v)) (fun med =>
  bind_res (p95 (latencies_ms v)) (fun p =>
  bind_res (truediv (correct v) n) (fun a =>
  Ok (mkMetrics avg mn mx med p a (preds_so_far v) n (RUNS_PER_SAMPLE cfg)))))))).

(** [run_one(model_name)] *)
Definition run_one (model_name : string) : M metrics :=
  v <- measure model_name ;;
  lift (summarise v).

Definition result : Type := (string * string * metrics)%type.

(** The body of [for model_id, pretty in MODELS]. *)
Definition evaluate (model : string * string) (all_results : list result)
  : M (list result) :=
  let '(model_id, pretty) := model in
  print (Loading model_id) ;;;
  try_except
    (res <- run_one model_id ;;
     ret (all_results ++ [(model_id, pretty, res)]))
    (fun e =>
       print (Failed model_id e) ;;;
       ret all_results).

Definition summary_row (r : result) : line :=
  let '(_, pretty, m) := r in
  SummaryRow pretty (avg_ms m) (med_ms m) (p95_ms m) (min_ms m) (max_ms m)
             (Qmult (acc m) (Qmake 100 1)).

Definition detail_row (pretty : string) (p : prediction) : line :=
  let '(text, expected, pred, conf) := p in
  let safe_text := replace_char "|" "\|" text in
  DetailRow pretty safe_text expected pred conf.

Definition print_all (ls : list line) : M unit :=
  for_each ls (fun l _ => print l) tt.

(** [main()] *)
Definition main : M unit :=
  all_results <- for_each (MODELS cfg) evaluate [] ;;
  print (Plain "## Mini-Benchmark (CPU)") ;;;
  print (SamplesLine (List.length (SAMPLES cfg)) (RUNS_PER_SAMPLE cfg)) ;;;
  print (Plain "| Model | Avg ms | Median | p95 | Min | Max | Accuracy |") ;;;
  print (Plain "|---|---:|---:|---:|---:|---:|---:|") ;;;
  for_each all_results (fun r _ => print (summary_row r)) tt ;;;
  print (Plain "<details><summary>Per-sample predictions</summary>") ;;;
  print (Plain "| Model | Text | Expected | Predicted | Confidence |") ;;;
  print (Plain "|---|---|---|---|---:|") ;;;
  for_each all_results
    (fun r _ =>
       let '(_, pretty, m) := r in
       for_each (preds m) (fun p _ => print (detail_row pretty p)) tt) tt ;;;
  print (Plain "</details>").

End Harness.

End Benchmark.

(** ** The comparison UI, [benchmark/benchmark_ui.py] *)

Module BenchmarkUI.
Import PyStr Py World.

(** [_normalize(label)]: [label or ""] turns [None] into the empty string. *)
Definition _normalize (label : option string) : string :=
  let t := lower (strip (match label with
                         | Some s => s
                         | None => ""
                         end)) in
  if str_in t ["positive"; "pos"; "label_1"; "1"] then "positive"
  else if str_in t ["negative"; "neg"; "label_0"; "0"] then "negative"
  else "negative".

Section Cache.
Variable w : world.

Local Open Scope py_scope.

(** [model_id not in _PIPELINES] and [_PIPELINES[model_id]] *)
Definition cached (model_id : string) (st : state) : option classifier :=
  match find (fun kv => String.eqb (fst kv) model_id) (_PIPELINES st) with
  | Some kv => Some (snd kv)
  | None => None
  end.

(** [_PIPELINES[model_id] = clf] *)
Definition store (model_id : string) (clf : classifier) : M unit :=
  fun st =>
    (Ok tt,
     mkState (reads st) (calls st) (log st) (stdout st)
             ((model_id, clf)
                :: filter (fun kv => negb (String.eqb (fst kv) model_id))
                          (_PIPELINES st))).

(** [_get_pipeline(model_id)] *)
Definition _get_pipeline (model_id : string) : M classifier :=
  fun st =>
    match cached model_id st with
    | Some clf => (Ok clf, st)
    | None =>
        (clf <- pipeline w model_id ;;
         store model_id clf ;;;
         try_except (call w clf "warmup" ;;; ret tt) (fun _ => ret tt) ;;;
         ret clf) st
    end.

End Cache.

(** The module-level configuration of [benchmark_ui.py]. *)
Record ui_config : Type := mkUIConfig {
  MODELS : list (string * string);
  SAMPLES : list string
}.

Definition shipped : ui_config := {|
  MODELS :=
    [ ("distilbert-base-uncased-finetuned-sst-2-english", "DistilBERT (HF)");
      ("textattack/distilbert-base-uncased-SST-2", "TA DistilBERT");
      ("textattack/roberta-base-SST-2", "TA RoBERTa") ];
  SAMPLES :=
    [ "I absolutely love this!";
      "This is the best thing ever.";
      "Not bad at all, pretty good.";
      "I hated the experience.";
      "This is terrible and disappointing.";
      "I wouldn't recommend it.";
      "It's okay, nothing special.";
      "I am pleasantly surprised." ]
|}.

(** The payload of the input table as Gradio hands it over with
    [type="array"]: [None] or a list of rows.  A row is a list or tuple of
    cells, a string, or something else; a cell is a string or any other
    object, known by what [str()] returns for it.  (For such a payload the
    branch that runs when pandas can be imported and the fallback that runs
    when it cannot are the same loop.) *)
Inductive cell : Type :=
| CellStr (s : string)
| CellOther (shown : string).

Inductive row : Type :=
| RowSeq (cells : list cell)
| RowStr (s : string)
| RowOther.

(** [str(c)] *)
Definition str_of (c : cell) : string :=
  match c with
  | CellStr s => s
  | CellOther shown => shown
  end.

(** The loop that collects [values]. *)
Definition row_values (r : row) : list string :=
  match r with
  | RowSeq (c :: _) => [str_of c]
  | RowSeq [] => []
  | RowStr s => [s]
  | RowOther => []
  end.

(** A string is true when it is not empty. *)
Definition truthy (s : string) : bool :=
  match s with
  | EmptyString => false
  | String _ _ => true
  end.

(** [_extract_texts(df_like)] *)
Definition _extract_texts (df_like : option (list row)) : list string :=
  let values := flat_map row_values (match df_like with
                                     | Some rows => rows
                                     | None => []
                                     end) in
  map strip (filter (fun t => truthy (strip t)) values).

Section Table.
Variable w : world.
Variable cfg : ui_config.

Local Open Scope py_scope.

(** The list comprehension that loads all models. *)
Definition load_all (models : list (string * string))
  : M (list (classifier * string)) :=
  for_each models
    (fun (model : string * string) (clfs : list (classifier * string)) =>
       let '(mid, pretty) := model in
       clf <- _get_pipeline w mid ;;
       ret (clfs ++ [(clf, pretty)])) [].

(** The body of [for t in texts]: the row of one text. *)
Definition label_row (clfs : list (classifier * string)) (t : string)
  : M (list string) :=
  for_each clfs
    (fun (c : classifier * string) (row : list string) =>
       let '(clf, _pretty) := c in
       outs <- call w clf t ;;
       o <- lift (getitem outs 0) ;;
       ret (row ++ [_normalize (label o)])) [t].

(** [run_table(df_input)] *)
Definition run_table (df_input : option (list row)) : M (list (list string)) :=
  let texts := _extract_texts df_input in
  let texts := match texts with
               | [] => SAMPLES cfg
               | _ => texts
               end in
  clfs <- load_all (MODELS cfg) ;;
  for_each texts
    (fun (t : string) (rows : list (list string)) =>
       r <- label_row clfs t ;;
       ret (rows ++ [r])) [].

End Table.

End BenchmarkUI.


(** ** The prediction endpoint, [app/main.py] *)

Module App.
Import PyStr Py World.

(** The model the endpoint serves; [nlp] is its pipeline, built when the
    module is imported. *)
Definition MODEL_NAME : string := "distilbert-base-uncased-finetuned-sst-2-english".

(** [PredictOut] *)
Record PredictOut : Type := mkPredictOut {
  text : string;
  sentiment : string;
  confidence : Q;
  summary : string
}.

(** How a request to [/predict] ends: rejected by the validation of
    [PredictIn] (422), an [HTTPException] raised by the endpoint, a
    [PredictOut], or an exception that leaves the endpoint. *)
Inductive reply : Type :=
| Invalid422
| HTTPException (status_code : nat) (detail : string)
| Returned (out : PredictOut)
| Escaped (e : exn)
| EscapedAttributeError.

(** One decimal digit. *)
Definition digit (d : Z) : ascii := ascii_of_nat (48 + Z.to_nat d).

(** The decimal digits of a natural number. *)
Definition decimal (n : Z) : string :=
  NilZero.string_of_uint (N.to_uint (Z.to_N n)).

(** [format(x, ".4f")]: the value rounded to four decimals, ties to the
    even neighbour. *)
Definition format_4f (x : Q) : string :=
  let negative := (Qnum x <? 0)%Z in
  let num := (Z.abs (Qnum x) * 10000)%Z in
  let den := Zpos (Qden x) in
  let n := (num / den)%Z in
  let r := (num mod den)%Z in
  let n' := if (den <? 2 * r)%Z then (n + 1)%Z
            else if (2 * r =? den)%Z then (if Z.even n then n else (n + 1)%Z)
            else n in
  ((if negative then "-" else "")
   ++ decimal (n' / 10000)
   ++ "."
   ++ String (digit (n' / 1000 mod 10))
        (String (digit (n' / 100 mod 10))
           (String (digit (n' / 10 mod 10))
              (String (digit (n' mod 10)) EmptyString))))%string.

(** [Field(..., min_length=1, max_length=2000)] on [PredictIn.text] *)
Definition valid_text (t : string) : bool :=
  (1 <=? String.length t) && (String.length t <=? 2000).

Section Endpoint.
Variable w : world.

(** [predict(payload)], for a payload that passed validation. *)
Definition predict (payload_text : string) : state -> reply * state :=
  fun st =>
    let text := strip payload_text in
    match text with
    | EmptyString => (HTTPException 400 "Text must not be empty", st)
    | _ =>
        match try_except
                (bind (call w MODEL_NAME text) (fun outs =>
                 bind (lift (getitem outs 0)) (fun o => ret (inl o))))
                (fun _ => ret (inr tt)) st with
        | (Raise e, st') => (Escaped e, st')
        | (Ok (inr _), st') => (HTTPException 500 "Inference error", st')
        | (Ok (inl o), st') =>
            match label o with
            | None => (EscapedAttributeError, st')
            | Some l =>
                let sentiment := lower l in
                let confidence := score o in
                let summary :=
                  (text ++ "-" ++ sentiment ++ "-" ++ format_4f confidence)%string in
                (Returned (mkPredictOut text sentiment confidence summary), st')
            end
        end
    end.

(** A request to [POST /predict] whose body has a string field [text]:
    validation first, then the endpoint. *)
Definition post_predict (payload_text : string) : state -> reply * state :=
  fun st =>
    if valid_text payload_text then predict payload_text st
    else (Invalid422, st).

End Endpoint.

End App.

(** * Vocabulary of the properties *)

(** ** Label variants *)

Module Labels.
Import PyStr.
Local Open Scope string_scope.

(** [s] is [x] up to letter case and surrounding white space. *)
Definition variant_of (x s : string) : Prop :=
  exists l y r,
    s = l ++ y ++ r /\ all_space l = true /\ all_space r = true /\ lower y = x.

Definition positive_keys : list string := ["positive"; "pos"; "label_1"; "1"].

Definition negative_keys : list string := ["negative"; "neg"; "label_0"; "0"].

Definition recognised : list string :=
  (positive_keys ++ negative_keys ++ ["neutral"])%list.

End Labels.

(** ** What one run of [run_one] does *)

Module Run.
Import Py World Benchmark.

(** The state after [dr] more clock readings, [dc] more inference calls
    and the events [evs]. *)
Definition advance (st : state) (dr dc : nat) (evs : list event) : state :=
  mkState (dr + reads st) (dc + calls st) (log st ++ evs) (stdout st)
          (_PIPELINES st).

Definition count_correct (ps : list prediction) : nat :=
  List.length
    (filter (fun p : prediction =>
               let '(_, expected, pred_label, _) := p in
               String.eqb pred_label expected) ps).

Section OneModel.
Variable w : world.
Variable cfg : config.
Variable m : string.

Let runs : nat := RUNS_PER_SAMPLE cfg.

(** The first item of what inference call number [k] returns, if it
    returns a non-empty list. *)
Definition answer (k : nat) (text : string) : option raw_prediction :=
  match infer w k m text with
  | Ok (o :: _) => Some o
  | _ => None
  end.

Definition first_item (k : nat) (text : string) : raw_prediction :=
  match answer k text with
  | Some o => o
  | None => mkRaw None (Qmake 0 1)
  end.

(** The duration, in milliseconds, between clock readings [r] and [r+1]. *)
Definition dt_ms (r : nat) : Q :=
  Qmult (Qminus (perf w (S r)) (perf w r)) (Qmake 1000 1).

Definition timed_events (text : string) : list event :=
  [EvPerfCounter; EvCall m text; EvPerfCounter].

Fixpoint run_latencies (k r : nat) : list Q :=
  match k with
  | O => []
  | S k' => dt_ms r :: run_latencies k' (2 + r)
  end.

Fixpoint run_events (k : nat) (text : string) : list event :=
  match k with
  | O => []
  | S k' => timed_events text ++ run_events k' text
  end.

Definition last_out (k c : nat) (text : string) (o0 : option raw_prediction)
  : option raw_prediction :=
  match k with
  | O => o0
  | S k' => answer (k' + c) text
  end.

(** Every call of the sample loop, started at call number [c], returns a
    non-empty list. *)
Fixpoint all_answered (c : nat) (samples : list (string * string)) : Prop :=
  match samples with
  | [] => True
  | (text, _) :: rest =>
      (forall j, j < runs -> answer (j + c) text <> None)
      /\ all_answered (runs + c) rest
  end.

Fixpoint sample_latencies (r : nat) (samples : list (string * string)) : list Q :=
  match samples with
  | [] => []
  | _ :: rest => run_latencies runs r ++ sample_latencies (2 * runs + r) rest
  end.

Fixpoint sample_events (samples : list (string * string)) : list event :=
  match samples with
  | [] => []
  | (text, _) :: rest => run_events runs text ++ sample_events rest
  end.

(** The entries the sample loop records when it starts at call number
    [c]: each sample is scored on the last of its [runs] calls. *)
Fixpoint scored (c : nat) (samples : list (string * string)) : list prediction :=
  match samples with
  | [] => []
  | (text, expected) :: rest =>
      let o := first_item (Nat.pred runs + c) text in
      (text, expected, normalize_label (label o), score o)
        :: scored (runs + c) rest
  end.

(** The events of a successful run: the pipeline is built, the warm-up
    call is made, and only then come the timed calls, each between two
    clock readings. *)
Definition run_log (samples : list (string * string)) : list event :=
  [EvPipeline m; EvCall m "warmup"] ++ sample_events samples.

(** The pipeline of [m] loads, its warm-up call returns and so does every
    call of the sample loop. *)
Definition healthy (st : state) : Prop :=
  load w m = None
  /\ (exists outs, infer w (calls st) m "warmup" = Ok outs)
  /\ all_answered (1 + calls st) (SAMPLES cfg).

End OneModel.
End Run.

(** ** Concrete worlds *)

Module Scenarios.
Import Py World Benchmark.

Definition tick (k : nat) : Q := inject_Z (Z.of_nat k).

Definition gold_label (text : string) : string :=
  match find (fun s => String.eqb (fst s) text) (SAMPLES shipped) with
  | Some (_, expected) => expected
  | None => "negative"
  end.

(** A model that is always right. *)
Definition gold_world : world :=
  mkWorld (fun _ => None)
          (fun _ _ text => Ok [mkRaw (Some (gold_label text)) (Qmake 99 100)])
          tick.

(** A model that always answers POSITIVE. *)
Definition yes_world : world :=
  mkWorld (fun _ => None)
          (fun _ _ _ => Ok [mkRaw (Some "POSITIVE") (Qmake 9 10)])
          tick.

(** A model that answers NEGATIVE on the first two calls made for a
    sample and POSITIVE on the third (with one warm-up call before, the
    last of three calls has a number divisible by 3). *)
Definition late_yes_world : world :=
  mkWorld (fun _ => None)
          (fun k _ _ =>
             if k mod 3 =? 0 then Ok [mkRaw (Some "POSITIVE") (Qmake 9 10)]
             else Ok [mkRaw (Some "NEGATIVE") (Qmake 6 10)])
          tick.

(** A model whose warm-up call raises and whose other calls return. *)
Definition cold_world : world :=
  mkWorld (fun _ => None)
          (fun _ _ text =>
             if String.eqb text "warmup" then Raise (LibraryError "cold start")
             else Ok [mkRaw (Some "POSITIVE") (Qmake 9 10)])
          tick.

(** Model "B" cannot be loaded; every other model answers POSITIVE. *)
Definition b_fails_world : world :=
  mkWorld (fun m => if String.eqb m "B" then Some (LibraryError "no such model")
                    else None)
          (fun _ _ _ => Ok [mkRaw (Some "POSITIVE") (Qmake 9 10)])
          tick.

(** Model "B" loads, but its inference raises on one of the samples. *)
Definition b_breaks_world : world :=
  mkWorld (fun _ => None)
          (fun _ m text =>
             if String.eqb m "B" && String.eqb text "I hated the experience."
             then Raise (LibraryError "inference failed")
             else Ok [mkRaw (Some "POSITIVE") (Qmake 9 10)])
          tick.

Definition two_models : config :=
  mkConfig [("A", "Model A"); ("B", "Model B")]
           (SAMPLES shipped) (RUNS_PER_SAMPLE shipped).

(** Twenty strictly increasing values. *)
Definition ramp20 : list Q :=
  map (fun k => inject_Z (Z.of_nat (10 * k + 3))) (seq 0 20).

End Scenarios.

(** ** What [main] prints *)

Module Report.
Import Py World Benchmark.

(** The state after printing the lines [ls]. *)
Definition say (st : state) (ls : list line) : state :=
  mkState (reads st) (calls st) (log st) (stdout st ++ ls) (_PIPELINES st).

(** A result that raises nothing but an [Exception]. *)
Definition catchable {A} (r : res A) : Prop :=
  forall e, r = Raise e -> is_Exception e = true.

(** A computation that prints nothing and raises nothing but an
    [Exception]. *)
Definition tame {A} (c : M A) : Prop :=
  forall st r st', c st = (r, st') -> stdout st' = stdout st /\ catchable r.

(** The outcomes that are results. *)
Definition successes (outs : list (string * string * res metrics)) : list result :=
  flat_map (fun o : string * string * res metrics =>
              match o with
              | (model_id, pretty, Ok r) => [(model_id, pretty, r)]
              | (_, _, Raise _) => []
              end) outs.

(** What the first loop prints. *)
Definition progress (outs : list (string * string * res metrics)) : list line :=
  flat_map (fun o : string * string * res metrics =>
              let '(model_id, _, r) := o in
              Loading model_id
                :: match r with
                   | Ok _ => []
                   | Raise e => [Failed model_id e]
                   end) outs.

(** The detail rows of one result. *)
Definition detail_rows (r : result) : list line :=
  let '(_, pretty, m) := r in map (detail_row pretty) (preds m).

(** The report [main] prints for the results [rs]: one summary row and
    one block of detail rows per result. *)
Definition report (cfg : config) (rs : list result) : list line :=
  [ Plain "## Mini-Benchmark (CPU)";
    SamplesLine (List.length (SAMPLES cfg)) (RUNS_PER_SAMPLE cfg);
    Plain "| Model | Avg ms | Median | p95 | Min | Max | Accuracy |";
    Plain "|---|---:|---:|---:|---:|---:|---:|" ]
  ++ map summary_row rs
  ++ [ Plain "<details><summary>Per-sample predictions</summary>";
       Plain "| Model | Text | Expected | Predicted | Confidence |";
       Plain "|---|---|---|---|---:|" ]
  ++ flat_map detail_rows rs
  ++ [ Plain "</details>" ].

Definition is_summary_row (l : line) : bool :=
  match l with
  | SummaryRow _ _ _ _ _ _ _ => true
  | _ => false
  end.

Definition is_detail_row (l : line) : bool :=
  match l with
  | DetailRow _ _ _ _ _ => true
  | _ => false
  end.

Definition is_failure (l : line) : bool :=
  match l with
  | Failed _ _ => true
  | _ => false
  end.

(** The failure lines the first loop prints. *)
Definition failures (outs : list (string * string * res metrics)) : list line :=
  flat_map (fun o : string * string * res metrics =>
              match o with
              | (model_id, _, Raise e) => [Failed model_id e]
              | (_, _, Ok _) => []
              end) outs.

Section Attempts.
Variable w : world.
Variable cfg : config.

(** What [main]'s first loop does with each model in turn: the outcome
    of its [run_one], and the state the loop is left in. *)
Fixpoint attempts (models : list (string * string)) (st : state)
  : list (string * string * res metrics) * state :=
  match models with
  | [] => ([], st)
  | (model_id, pretty) :: rest =>
      let (r, st1) := run_one w cfg model_id (say st [Loading model_id]) in
      let st2 := match r with
                 | Ok _ => st1
                 | Raise e => say st1 [Failed model_id e]
                 end in
      let (outs, st3) := attempts rest st2 in
      ((model_id, pretty, r) :: outs, st3)
  end.

End Attempts.
End Report.

(** ** The index of [p95] in IEEE binary64 *)

Module Binary64.
Import Py.

Definition prec : Z := 53.

Definition emax : Z := 1024.

(** [float(k)] for an int [k] *)
Definition float_of_int (k : Z) : spec_float := binary_normalize prec emax k 0 false.

(** The literal [0.95], that is 0x1.e666666666666p-1. *)
Definition lit_0_95 : spec_float := S754_finite false 8556839292003942 (-53).

(** [int(x)] for a binary64 [x] *)
Definition int_of_float (x : spec_float) : Z :=
  match x with
  | S754_finite s mant e =>
      let a := if (0 <=? e)%Z then (Zpos mant * 2 ^ e)%Z
               else (Zpos mant / 2 ^ (- e))%Z in
      if s then (- a)%Z else a
  | _ => 0%Z
  end.

(** [int(0.95 * k)] as Python computes it. *)
Definition index64 (k : Z) : Z :=
  int_of_float (SFmul prec emax lit_0_95 (float_of_int k)).

End Binary64.

(** ** Escaped texts, ordered selections and failing calls *)

Module Shapes.
Import PyStr Py World Benchmark.
Local Open Scope string_scope.

(** Reading an escaped table cell back: a backslash directly before a
    pipe is dropped. *)
Fixpoint unescape (s : string) : string :=
  match s with
  | EmptyString => EmptyString
  | String c s1 =>
      match s1 with
      | String d s2 =>
          if Ascii.eqb c "\" && Ascii.eqb d "|" then String "|" (unescape s2)
          else String c (unescape s1)
      | EmptyString => String c EmptyString
      end
  end.

(** [text.replace("|", "\\|")], how [main] writes a text into a table cell. *)
Definition escape (text : string) : string := replace_char "|" "\|" text.

(** Every pipe of [s] stands directly after a backslash. *)
Definition pipes_escaped (s : string) : Prop :=
  forall i, String.get i s = Some "|"%char ->
            exists j, i = S j /\ String.get j s = Some "\"%char.



(** What a timed call raises when the pipeline raises or returns an empty
    list. *)
Definition failure_of (r : res (list raw_prediction)) : exn :=
  match r with
  | Raise e => e
  | Ok _ => IndexError
  end.

Definition count_pipelines (evs : list event) : nat :=
  List.length (filter (fun ev => match ev with
                                 | EvPipeline _ => true
                                 | _ => false
                                 end) evs).

End Shapes.

(** ** More concrete configurations *)

Module Scenarios2.
Import Py World Benchmark Scenarios.

(** Two models and two samples, one of them with pipes in its text. *)
Definition piped : config :=
  mkConfig [("A", "Model A"); ("B", "Model B")]
           [("good | bad || ugly", "positive"); ("fine", "negative")] 2.

(** A configuration without samples, and one without repeats. *)
Definition no_samples : config := mkConfig (MODELS shipped) [] 3.

Definition no_runs : config := mkConfig (MODELS shipped) (SAMPLES shipped) 0.

(** A configuration without models. *)
Definition no_models : config := mkConfig [] (SAMPLES shipped) 3.

(** The first model cannot be loaded because the user interrupts. *)
Definition interrupted_world : world :=
  mkWorld (fun _ => Some KeyboardInterrupt)
          (fun _ _ _ => Ok [mkRaw (Some "POSITIVE") (Qmake 9 10)])
          tick.

(** The pipeline answers the fifth inference call of the process with an
    empty list. *)
Definition empty_answer_world : world :=
  mkWorld (fun _ => None)
          (fun k _ _ => if k =? 4 then Ok []
                        else Ok [mkRaw (Some "POSITIVE") (Qmake 9 10)])
          tick.

End Scenarios2.

(** ** The table of the comparison UI *)

Module UIShapes.
Import PyStr Py World BenchmarkUI.
Local Open Scope string_scope.

(** The texts [run_table] works on: the cleaned input, or the default
    samples when the input has no usable text. *)
Definition shown_texts (cfg : ui_config) (df_input : option (list row)) : list string :=
  match _extract_texts df_input with
  | [] => SAMPLES cfg
  | ts => ts
  end.

Definition two_valued (l : string) : Prop := l = "positive" \/ l = "negative".

(** A row of the output table for the text [t] and [n] models. *)
Definition table_row (n : nat) (t : string) (r : list string) : Prop :=
  exists labels,
    r = t :: labels /\ List.length labels = n /\ Forall two_valued labels.

(** A computation that neither builds a pipeline nor changes the cache. *)
Definition cache_neutral {A} (c : M A) : Prop :=
  forall st r st',
    c st = (r, st') ->
    _PIPELINES st' = _PIPELINES st
    /\ Shapes.count_pipelines (log st') = Shapes.count_pipelines (log st).

(** A world in which every model loads and every inference call returns
    a non-empty list. *)
Definition answering (w : world) : Prop :=
  (forall m, load w m = None)
  /\ (forall k m text, exists o outs, infer w k m text = Ok (o :: outs)).

(** A UI configuration with two models and one default text. *)
Definition two_ui_models : ui_config :=
  mkUIConfig [("A", "Model A"); ("B", "Model B")] ["fine"].

(** A payload with blank rows, a bare string and a number. *)
Definition messy_payload : option (list row) :=
  Some [ RowSeq [CellStr "  so good "]; RowStr "   "; RowOther; RowSeq [];
         RowSeq [CellOther "42"; CellStr "ignored"]; RowStr "meh" ].

End UIShapes.

(** * Properties *)

(** ** Strings *)

Module PyStrFacts.
Import PyStr.
Local Open Scope string_scope.

Ltac each_char c :=
  destruct c as [[] [] [] [] [] [] [] []]; vm_compute; reflexivity.

Lemma isspace_lower_char (c : ascii) : isspace (lower_char c) = isspace c.
Proof. each_char c. Qed.

Lemma lower_char_idem (c : ascii) : lower_char (lower_char c) = lower_char c.
Proof. each_char c. Qed.

Lemma lower_idem (s : string) : lower (lower s) = lower s.
Proof.
  induction s as [|c s IH]; simpl; [reflexivity|].
  now rewrite lower_char_idem, IH.
Qed.

Lemma lower_app (s t : string) : lower (s ++ t) = lower s ++ lower t.
Proof. induction s as [|c s IH]; simpl; [reflexivity | now rewrite IH]. Qed.

Lemma lstrip_lower (s : string) : lstrip (lower s) = lower (lstrip s).
Proof.
  induction s as [|c s IH]; simpl; [reflexivity|].
  rewrite isspace_lower_char. destruct (isspace c); [exact IH | reflexivity].
Qed.

Lemma rstrip_lower (s : string) : rstrip (lower s) = lower (rstrip s).
Proof.
  induction s as [|c s IH]; simpl; [reflexivity|].
  rewrite IH, isspace_lower_char.
  destruct (rstrip s); simpl; [destruct (isspace c)|]; reflexivity.
Qed.

Lemma strip_lower (s : string) : strip (lower s) = lower (strip s).
Proof. unfold strip. now rewrite lstrip_lower, rstrip_lower. Qed.

(** What [lstrip] leaves is empty or starts with a character that is not
    white space. *)
Lemma lstrip_head (s : string) :
  lstrip s = "" \/ exists c t, lstrip s = String c t /\ isspace c = false.
Proof.
  induction s as [|c s IH]; simpl; [now left|].
  destruct (isspace c) eqn:E; [exact IH|].
  right. now exists c, s.
Qed.

Lemma rstrip_cons (c : ascii) (s : string) :
  isspace c = false -> rstrip (String c s) = String c (rstrip s).
Proof. intros E. simpl. rewrite E. now destruct (rstrip s). Qed.

Lemma rstrip_idem (s : string) : rstrip (rstrip s) = rstrip s.
Proof.
  induction s as [|c s IH]; simpl; [reflexivity|].
  destruct (rstrip s) as [|d r] eqn:R.
  - destruct (isspace c) eqn:E; simpl; [reflexivity | now rewrite E].
  - change (rstrip (String c (String d r))) with
      (match rstrip (String d r) with
       | "" => if isspace c then "" else String c ""
       | String a b => String c (String a b)
       end).
    now rewrite IH.
Qed.

Lemma strip_idem (s : string) : strip (strip s) = strip s.
Proof.
  unfold strip. destruct (lstrip_head s) as [E | (c & t & E & Hc)]; rewrite E.
  - reflexivity.
  - rewrite (rstrip_cons c t Hc). simpl lstrip. rewrite Hc.
    rewrite <- (rstrip_cons c t Hc). apply rstrip_idem.
Qed.

Lemma all_space_lstrip (s : string) : all_space s = true -> lstrip s = "".
Proof.
  induction s as [|c s IH]; simpl; [reflexivity|].
  destruct (isspace c); simpl; [exact IH | discriminate].
Qed.

Lemma all_space_rstrip (s : string) : all_space s = true -> rstrip s = "".
Proof.
  induction s as [|c s IH]; simpl; [reflexivity|].
  destruct (isspace c); simpl; [|discriminate].
  intros H. now rewrite (IH H).
Qed.

Lemma lstrip_app_space (l z : string) :
  all_space l = true -> lstrip (l ++ z) = lstrip z.
Proof.
  induction l as [|c l IH]; simpl; [reflexivity|].
  destruct (isspace c); simpl; [exact IH | discriminate].
Qed.

Lemma rstrip_app_space (z r : string) :
  all_space r = true -> rstrip (z ++ r) = rstrip z.
Proof.
  intros Hr. induction z as [|c z IH]; simpl.
  - now apply all_space_rstrip.
  - now rewrite IH.
Qed.

Lemma lstrip_app (y r : string) :
  lstrip (y ++ r) = if all_space y then lstrip r else lstrip y ++ r.
Proof.
  induction y as [|c y IH]; simpl; [reflexivity|].
  destruct (isspace c); simpl; [exact IH | reflexivity].
Qed.

(** White space around a string does not change what [strip] returns. *)
Lemma strip_padded (l y r : string) :
  all_space l = true -> all_space r = true -> strip (l ++ y ++ r) = strip y.
Proof.
  intros Hl Hr. unfold strip.
  rewrite (lstrip_app_space l _ Hl), lstrip_app.
  destruct (all_space y) eqn:Hy.
  - now rewrite (all_space_lstrip r Hr), (all_space_lstrip y Hy).
  - now apply rstrip_app_space.
Qed.

Lemma str_in_In (t : string) (keys : list string) :
  str_in t keys = true <-> In t keys.
Proof.
  unfold str_in. rewrite existsb_exists. split.
  - intros (x & Hx & E). apply String.eqb_eq in E. now subst.
  - intros H. exists t. split; [exact H | apply String.eqb_refl].
Qed.

Lemma str_in_not_In (t : string) (keys : list string) :
  str_in t keys = false <-> ~ In t keys.
Proof.
  rewrite <- str_in_In. destruct (str_in t keys); split; intros H;
    congruence || (now elim H) || idtac.
Qed.

End PyStrFacts.

(** ** The label normaliser *)

Module NormalizeFacts.
Import PyStr PyStrFacts Benchmark Labels.
Local Open Scope string_scope.

Lemma recognised_tight (x : string) : In x recognised -> strip x = x.
Proof.
  intros H. repeat (destruct H as [<- | H]; [reflexivity|]). destruct H.
Qed.

Lemma variant_key (x s : string) :
  In x recognised -> variant_of x s -> lower (strip s) = x.
Proof.
  intros Hx (l & y & r & -> & Hl & Hr & <-).
  rewrite (strip_padded l y r Hl Hr), <- strip_lower.
  now apply recognised_tight.
Qed.

(** C1, the input on which the claimed mapping fails: the empty string is
    not sent to "unknown" but returned as it is, and a padded unknown label
    comes back trimmed, not merely lowercased. *)
Lemma normalize_label_empty_not_unknown :
  normalize_label (Some "") = ""
  /\ normalize_label (Some "") <> "unknown"
  /\ normalize_label (Some " Mixed ") = "mixed"
  /\ normalize_label (Some " Mixed ") <> lower " Mixed ".
Proof. repeat split; vm_compute; congruence. Qed.

(** C1, as the code has it: [None] gives "unknown"; every variant (letter
    case, surrounding white space) of "positive", "pos", "label_1", "1"
    gives "positive"; every variant of "negative", "neg", "label_0", "0"
    and of "neutral" gives "negative"; every other string, the empty one
    included, is returned trimmed and lowercased. *)
Theorem normalize_label_mapping :
  normalize_label None = "unknown"
  /\ (forall x s, In x positive_keys -> variant_of x s ->
        normalize_label (Some s) = "positive")
  /\ (forall x s, In x negative_keys -> variant_of x s ->
        normalize_label (Some s) = "negative")
  /\ (forall s, variant_of "neutral" s -> normalize_label (Some s) = "negative")
  /\ (forall s, ~ In (lower (strip s)) recognised ->
        normalize_label (Some s) = lower (strip s)).
Proof.
  split; [reflexivity|]. split; [|split; [|split]].
  - intros x s Hx Hv.
    assert (E : lower (strip s) = x).
    { apply variant_key; [|exact Hv]. unfold recognised. apply in_or_app. now left. }
    unfold normalize_label. rewrite E.
    repeat (destruct Hx as [<- | Hx]; [reflexivity|]). destruct Hx.
  - intros x s Hx Hv.
    assert (E : lower (strip s) = x).
    { apply variant_key; [|exact Hv]. unfold recognised.
      apply in_or_app. right. apply in_or_app. now left. }
    unfold normalize_label. rewrite E.
    repeat (destruct Hx as [<- | Hx]; [reflexivity|]). destruct Hx.
  - intros s Hv.
    assert (E : lower (strip s) = "neutral").
    { apply variant_key; [|exact Hv]. unfold recognised.
      apply in_or_app. right. apply in_or_app. right. now left. }
    unfold normalize_label. now rewrite E.
  - intros s Hn. unfold normalize_label.
    assert (H1 : str_in (lower (strip s)) positive_keys = false).
    { apply str_in_not_In. intros H. apply Hn. unfold recognised.
      apply in_or_app. now left. }
    assert (H2 : str_in (lower (strip s)) negative_keys = false).
    { apply str_in_not_In. intros H. apply Hn. unfold recognised.
      apply in_or_app. right. apply in_or_app. now left. }
    assert (H3 : str_in (lower (strip s)) ["neutral"] = false).
    { apply str_in_not_In. intros H. apply Hn. unfold recognised.
      apply in_or_app. right. apply in_or_app. now right. }
    unfold positive_keys, negative_keys in H1, H2.
    now rewrite H1, H2, H3.
Qed.

Lemma normalize_label_mapping_witness :
  normalize_label (Some "  PoSiTiVe ") = "positive"
  /\ normalize_label (Some "LABEL_0 ") = "negative"
  /\ normalize_label (Some " Neutral") = "negative"
  /\ normalize_label (Some " Mixed ") = lower (strip " Mixed ").
Proof.
  destruct normalize_label_mapping as (_ & Hp & Hn & Hz & Ho).
  split; [|split; [|split]].
  - apply (Hp "positive"); [now left|].
    exists "  ", "PoSiTiVe", " ". repeat split; reflexivity.
  - apply (Hn "label_0"); [right; right; now left|].
    exists "", "LABEL_0", " ". repeat split; reflexivity.
  - apply Hz. exists " ", "Neutral", "". repeat split; reflexivity.
  - apply Ho. vm_compute. intros H.
    repeat (destruct H as [H | H]; [discriminate H|]). exact H.
Defined.

(** C10: [normalize_label] is idempotent, and what it returns is trimmed
    and lowercase. *)
Theorem normalize_label_idempotent (raw : option string) :
  normalize_label (Some (normalize_label raw)) = normalize_label raw
  /\ strip (normalize_label raw) = normalize_label raw
  /\ lower (normalize_label raw) = normalize_label raw.
Proof.
  destruct raw as [s|]; [|repeat split; reflexivity].
  assert (Es : strip (lower (strip s)) = lower (strip s)).
  { now rewrite strip_lower, strip_idem. }
  assert (El : lower (lower (strip s)) = lower (strip s)) by apply lower_idem.
  assert (E : normalize_label (Some s) =
              let t := lower (strip s) in
              if str_in t ["positive"; "pos"; "label_1"; "1"] then "positive"
              else if str_in t ["negative"; "neg"; "label_0"; "0"] then "negative"
              else if str_in t ["neutral"] then "negative"
              else t) by reflexivity.
  rewrite E. clear E. cbv zeta.
  destruct (str_in (lower (strip s)) ["positive"; "pos"; "label_1"; "1"]) eqn:H1;
    [repeat split; reflexivity|].
  destruct (str_in (lower (strip s)) ["negative"; "neg"; "label_0"; "0"]) eqn:H2;
    [repeat split; reflexivity|].
  destruct (str_in (lower (strip s)) ["neutral"]) eqn:H3;
    [repeat split; reflexivity|].
  split; [|split; assumption].
  unfold normalize_label. rewrite Es, El, H1, H2, H3. reflexivity.
Qed.

(** The UI's normaliser differs: it knows no "unknown" and no pass-through,
    and answers "negative" for everything that is not a positive key. *)
Lemma _normalize_two_valued (label : option string) :
  BenchmarkUI._normalize label = "positive"
  \/ BenchmarkUI._normalize label = "negative".
Proof.
  unfold BenchmarkUI._normalize.
  destruct (str_in _ ["positive"; "pos"; "label_1"; "1"]); [now left|].
  destruct (str_in _ ["negative"; "neg"; "label_0"; "0"]); now right.
Qed.

End NormalizeFacts.

(** ** Latency statistics *)

Module StatsFacts.
Import Py Benchmark Scenarios.
Local Open Scope Q_scope.

Lemma Qltb_lt (x y : Q) : Qltb x y = true <-> x < y.
Proof.
  unfold Qltb. rewrite negb_true_iff. split.
  - intros H. apply Qnot_le_lt. intros L.
    apply Qle_bool_iff in L. congruence.
  - intros H. destruct (Qle_bool y x) eqn:E; [|reflexivity].
    apply Qle_bool_iff in E. exfalso. exact (Qlt_not_le _ _ H E).
Qed.

Lemma Qltb_ge (x y : Q) : Qltb x y = false <-> y <= x.
Proof.
  unfold Qltb. rewrite negb_false_iff. apply Qle_bool_iff.
Qed.

Lemma insert_Permutation (x : Q) (l : list Q) : Permutation (insert x l) (x :: l).
Proof.
  induction l as [|y l IH]; simpl; [apply Permutation_refl|].
  destruct (Qltb y x); [|apply Permutation_refl].
  eapply perm_trans; [apply perm_skip, IH | apply perm_swap].
Qed.

Lemma sorted_Permutation (l : list Q) : Permutation (sorted l) l.
Proof.
  induction l as [|x l IH]; simpl; [constructor|].
  eapply perm_trans; [apply insert_Permutation | now apply perm_skip].
Qed.

Lemma sorted_length (l : list Q) : List.length (sorted l) = List.length l.
Proof. apply Permutation_length, sorted_Permutation. Qed.

Lemma insert_HdRel (a x : Q) (l : list Q) :
  a <= x -> HdRel Qle a l -> HdRel Qle a (insert x l).
Proof.
  intros Hax H. destruct l as [|y l]; simpl; [now constructor|].
  destruct (Qltb y x); constructor; [now inversion H | exact Hax].
Qed.

Lemma insert_Sorted (x : Q) (l : list Q) :
  Sorted Qle l -> Sorted Qle (insert x l).
Proof.
  induction l as [|y l IH]; simpl; intros H.
  - repeat constructor.
  - inversion H as [|? ? Hs Hh]; subst.
    destruct (Qltb y x) eqn:E.
    + constructor; [now apply IH|].
      apply insert_HdRel; [|exact Hh].
      apply Qlt_le_weak. now apply Qltb_lt.
    + constructor; [exact H|]. constructor. now apply Qltb_ge.
Qed.

(** [sorted] returns its argument in ascending order. *)
Lemma sorted_Sorted (l : list Q) : Sorted Qle (sorted l).
Proof.
  induction l as [|x l IH]; simpl; [constructor | now apply insert_Sorted].
Qed.

(** A strictly increasing list is left as it is. *)
Lemma sorted_increasing (l : list Q) : Sorted Qlt l -> sorted l = l.
Proof.
  induction l as [|x l IH]; simpl; intros H; [reflexivity|].
  inversion H as [|? ? Hs Hh]; subst. rewrite (IH Hs).
  destruct l as [|y l]; simpl; [reflexivity|].
  inversion Hh as [|? ? Hxy]; subst.
  assert (E : Qltb y x = false) by (apply Qltb_ge; now apply Qlt_le_weak).
  now rewrite E.
Qed.

Lemma getitem_in_range {A} (l : list A) (i : Z) :
  (0 <= i < Z.of_nat (List.length l))%Z ->
  exists a, getitem l i = Ok a /\ nth_error l (Z.to_nat i) = Some a.
Proof.
  intros [H0 H1]. unfold getitem.
  assert (E : (i <? 0)%Z = false) by (apply Z.ltb_ge; exact H0).
  rewrite E, E.
  destruct (nth_error l (Z.to_nat i)) as [a|] eqn:N; [now exists a|].
  apply nth_error_None in N. lia.
Qed.

(** The index [p95] computes, for [k = len(vals) - 1]. *)
Lemma p95_index (k : Z) :
  (0 <= k)%Z ->
  int (Qmake 95 100 * inject_Z k) = Qfloor (Qmake 95 100 * inject_Z k)
  /\ (0 <= int (Qmake 95 100 * inject_Z k) <= k)%Z.
Proof.
  intros Hk. unfold int, Qfloor, Qmult, inject_Z.
  cbn [Qnum Qden]. change (Z.pos (100 * 1)) with 100%Z.
  rewrite Z.quot_div_nonneg by lia. split; [reflexivity|].
  split.
  - apply Z.div_pos; lia.
  - apply Z.div_le_upper_bound; lia.
Qed.

Lemma p95_nonempty (vals : list Q) :
  vals <> [] ->
  exists v,
    p95 vals = Ok v
    /\ nth_error (sorted vals)
         (Z.to_nat (Qfloor (Qmake 95 100
                            * inject_Z (Z.of_nat (List.length vals) - 1))))
       = Some v.
Proof.
  intros Hne. destruct vals as [|x l]; [congruence|].
  unfold p95. rewrite sorted_length.
  set (k := (Z.of_nat (List.length (x :: l)) - 1)%Z).
  assert (Hk : (0 <= k)%Z) by (subst k; simpl List.length; lia).
  destruct (p95_index k Hk) as [E [L U]].
  rewrite <- E.
  apply getitem_in_range. rewrite sorted_length. subst k. lia.
Qed.

(** C5: [p95] of the empty sequence is 0.0, of a one-element sequence its
    element; on a non-empty sequence it returns the element of the
    ascending rearrangement at index floor(0.95 * (count - 1)), which for
    20 strictly increasing values is the value at index 18. *)
Theorem p95_spec :
  p95 [] = Ok (Qmake 0 1)
  /\ (forall x, p95 [x] = Ok x)
  /\ (forall vals, vals <> [] ->
        Sorted Qle (sorted vals)
        /\ Permutation (sorted vals) vals
        /\ exists v,
             p95 vals = Ok v
             /\ nth_error (sorted vals)
                  (Z.to_nat (Qfloor (Qmake 95 100
                                     * inject_Z (Z.of_nat (List.length vals) - 1))))
                = Some v)
  /\ (forall vals, List.length vals = 20%nat -> Sorted Qlt vals ->
        exists v, p95 vals = Ok v /\ nth_error vals 18 = Some v).
Proof.
  split; [reflexivity|]. split; [intros x; reflexivity|]. split.
  - intros vals Hne. split; [apply sorted_Sorted|].
    split; [apply sorted_Permutation|]. now apply p95_nonempty.
  - intros vals Hlen Hinc.
    assert (Hne : vals <> []) by (intros ->; discriminate).
    destruct (p95_nonempty vals Hne) as (v & Hv & Hn).
    exists v. split; [exact Hv|].
    rewrite (sorted_increasing vals Hinc), Hlen in Hn. exact Hn.
Qed.

Lemma p95_spec_witness :
  (exists v, p95 ramp20 = Ok v /\ nth_error ramp20 18 = Some v)
  /\ (exists v, p95 [Qmake 7 2; Qmake 1 2; Qmake 5 2] = Ok v
                /\ nth_error (sorted [Qmake 7 2; Qmake 1 2; Qmake 5 2]) 1 = Some v).
Proof.
  destruct p95_spec as (_ & _ & Hgen & H20). split.
  - apply H20; [reflexivity|].
    unfold ramp20. simpl.
    repeat (constructor; [|try (constructor; reflexivity)]). constructor.
  - destruct (Hgen [Qmake 7 2; Qmake 1 2; Qmake 5 2]) as (_ & _ & v & Hv & Hn);
      [discriminate|].
    exists v. split; [exact Hv | exact Hn].
Defined.

Lemma median_nonempty (l : list Q) : l <> [] -> exists v, median l = Ok v.
Proof.
  intros Hne. unfold median. rewrite sorted_length.
  assert (Hn : (0 < List.length l)%nat).
  { destruct l; [congruence | simpl; lia]. }
  set (n := List.length l) in *.
  destruct (n =? 0)%nat eqn:E0; [apply Nat.eqb_eq in E0; lia|].
  assert (Hlen : List.length (sorted l) = n) by apply sorted_length.
  destruct (n mod 2 =? 1)%nat eqn:E1.
  - destruct (getitem_in_range (sorted l) (Z.of_nat (n / 2))) as (a & Ha & _).
    { rewrite Hlen. split; [lia|]. apply Nat2Z.inj_lt.
      apply Nat.div_lt; lia. }
    now exists a.
  - apply Nat.eqb_neq in E1.
    assert (Hd : (n = 2 * (n / 2))%nat).
    { pose proof (Nat.div_mod_eq n 2) as D.
      pose proof (Nat.mod_upper_bound n 2) as B. lia. }
    destruct (getitem_in_range (sorted l) (Z.of_nat (n / 2) - 1)) as (a & Ha & _).
    { rewrite Hlen. lia. }
    destruct (getitem_in_range (sorted l) (Z.of_nat (n / 2))) as (b & Hb & _).
    { rewrite Hlen. lia. }
    rewrite Ha, Hb. simpl. eexists; reflexivity.
Qed.

(** C3, the functions that do raise on an empty sequence. *)
Lemma mean_empty_raises :
  mean [] <> Ok (Qmake 0 1)
  /\ py_min [] <> Ok (Qmake 0 1)
  /\ py_max [] <> Ok (Qmake 0 1)
  /\ median [] <> Ok (Qmake 0 1).
Proof. repeat split; discriminate. Qed.

Lemma statistics_nonempty (l : list Q) :
  l <> [] ->
  (exists v, mean l = Ok v) /\ (exists v, py_min l = Ok v)
  /\ (exists v, py_max l = Ok v) /\ (exists v, median l = Ok v)
  /\ (exists v, p95 l = Ok v).
Proof.
  intros Hne. split; [|split; [|split; [|split]]].
  - destruct l; [congruence | eexists; reflexivity].
  - destruct l; [congruence | eexists; reflexivity].
  - destruct l; [congruence | eexists; reflexivity].
  - now apply median_nonempty.
  - destruct (p95_nonempty l Hne) as (v & Hv & _). now exists v.
Qed.

(** C3, as the code has it: on an empty sequence [p95] returns 0.0, [mean]
    and [median] raise StatisticsError, [min] and [max] raise ValueError;
    on a non-empty sequence all five return a value. *)
Theorem statistics_on_empty :
  p95 [] = Ok (Qmake 0 1)
  /\ mean [] = Raise StatisticsError
  /\ median [] = Raise StatisticsError
  /\ py_min [] = Raise ValueError
  /\ py_max [] = Raise ValueError
  /\ (forall l, l <> [] ->
        (exists v, mean l = Ok v) /\ (exists v, py_min l = Ok v)
        /\ (exists v, py_max l = Ok v) /\ (exists v, median l = Ok v)
        /\ (exists v, p95 l = Ok v)).
Proof.
  repeat (split; [reflexivity|]). exact statistics_nonempty.
Qed.

Lemma statistics_on_empty_witness :
  (exists v, mean ramp20 = Ok v) /\ (exists v, py_min ramp20 = Ok v)
  /\ (exists v, py_max ramp20 = Ok v) /\ (exists v, median ramp20 = Ok v)
  /\ (exists v, p95 ramp20 = Ok v).
Proof.
  destruct statistics_on_empty as (_ & _ & _ & _ & _ & H).
  apply H. discriminate.
Defined.

End StatsFacts.

(** ** One run of [run_one], step by step *)

Module RunLemmas.
Import Py World Benchmark.

Lemma advance_advance st a b e a' b' e' :
  Run.advance (Run.advance st a b e) a' b' e'
  = Run.advance st (a' + a) (b' + b) (e ++ e').
Proof.
  unfold Run.advance. simpl. f_equal; try lia. now rewrite app_assoc.
Qed.

Lemma advance_0 st : Run.advance st 0 0 [] = st.
Proof. destruct st. unfold Run.advance. simpl. now rewrite app_nil_r. Qed.

Lemma count_correct_cons (p : prediction) (ps : list prediction) :
  Run.count_correct (p :: ps)
  = (let '(_, expected, pred_label, _) := p in
     if String.eqb pred_label expected then 1 else 0) + Run.count_correct ps.
Proof.
  unfold Run.count_correct. cbn [filter]. destruct p as [[[t e] l] c].
  now destruct (String.eqb l e).
Qed.

Section OneModel.
Variable w : world.
Variable cfg : config.
Variable m : string.

Let runs : nat := RUNS_PER_SAMPLE cfg.

Local Abbreviation advance := Run.advance.
Local Abbreviation count_correct := Run.count_correct.
Local Abbreviation answer := (Run.answer w m).
Local Abbreviation first_item := (Run.first_item w m).
Local Abbreviation dt_ms := (Run.dt_ms w).
Local Abbreviation timed_events := (Run.timed_events m).
Local Abbreviation run_latencies := (Run.run_latencies w).
Local Abbreviation run_events := (Run.run_events m).
Local Abbreviation last_out := (Run.last_out w m).
Local Abbreviation all_answered := (Run.all_answered w cfg m).
Local Abbreviation sample_latencies := (Run.sample_latencies w cfg).
Local Abbreviation sample_events := (Run.sample_events cfg m).
Local Abbreviation scored := (Run.scored w cfg m).
Local Abbreviation run_log := (Run.run_log cfg m).
Local Abbreviation healthy := (Run.healthy w cfg m).

Lemma timed_call_ok (text : string) (v : locals) (st : state) (o : raw_prediction) :
  answer (calls st) text = Some o ->
  timed_call w m text v st
  = (Ok (mkLocals (Some o) (latencies_ms v ++ [dt_ms (reads st)])
                  (correct v) (preds_so_far v)),
     advance st 2 1 (timed_events text)).
Proof.
  unfold answer. intros H.
  unfold timed_call, bind, perf_counter, call, lift, ret. simpl.
  destruct (infer w (calls st) m text) as [[|o' outs]|e]; try discriminate.
  injection H as ->. simpl.
  unfold advance, timed_events, dt_ms. simpl.
  now rewrite <- !app_assoc.
Qed.

Lemma timed_runs_ok (text : string) (k : nat) :
  forall (v : locals) (st : state),
    (forall j, j < k -> answer (j + calls st) text <> None) ->
    for_range k (timed_call w m text) v st
    = (Ok (mkLocals (last_out k (calls st) text (out v))
                    (latencies_ms v ++ run_latencies k (reads st))
                    (correct v) (preds_so_far v)),
       advance st (2 * k) k (run_events k text)).
Proof.
  induction k as [|k IH]; intros v st H.
  - simpl. unfold ret. rewrite app_nil_r, advance_0. now destruct v.
  - destruct (answer (calls st) text) as [o|] eqn:A.
    2:{ exfalso. apply (H 0); [lia | exact A]. }
    cbn [for_range]. unfold bind at 1. rewrite (timed_call_ok text v st o A).
    rewrite IH.
    + rewrite advance_advance. cbn [latencies_ms correct preds_so_far out].
      f_equal; [|f_equal; lia].
      f_equal. f_equal.
      * destruct k as [|k]; simpl; [now rewrite A|].
        f_equal. lia.
      * now rewrite <- app_assoc.
    + intros j Hj. simpl calls.
      replace (j + S (calls st)) with (S j + calls st) by lia.
      apply H. lia.
Qed.

Lemma score_sample_ok (text expected : string) (v : locals) (st : state) :
  0 < runs ->
  (forall j, j < runs -> answer (j + calls st) text <> None) ->
  let o := first_item (Nat.pred runs + calls st) text in
  let pred_label := normalize_label (label o) in
  score_sample w cfg m (text, expected) v st
  = (Ok (mkLocals (Some o)
                  (latencies_ms v ++ run_latencies runs (reads st))
                  (if String.eqb pred_label expected then correct v + 1
                   else correct v)
                  (preds_so_far v ++ [(text, expected, pred_label, score o)])),
     advance st (2 * runs) runs (run_events runs text)).
Proof.
  intros Hr H o pred_label. unfold score_sample, bind.
  fold runs. rewrite (timed_runs_ok text runs v st H).
  cbn [out latencies_ms correct preds_so_far].
  assert (E : last_out runs (calls st) text (out v) = Some o).
  { subst o. unfold first_item. destruct runs as [|k] eqn:R; [lia|].
    simpl. destruct (answer (k + calls st) text) eqn:A; [reflexivity|].
    exfalso. apply (H k); [lia | exact A]. }
  rewrite E. unfold ret. reflexivity.
Qed.

Lemma sample_loop_ok (samples : list (string * string)) :
  0 < runs ->
  forall (v : locals) (st : state),
    all_answered (calls st) samples ->
    exists o,
      for_each samples (score_sample w cfg m) v st
      = (Ok (mkLocals o
                      (latencies_ms v ++ sample_latencies (reads st) samples)
                      (correct v + count_correct (scored (calls st) samples))
                      (preds_so_far v ++ scored (calls st) samples)),
         advance st (2 * runs * List.length samples)
                 (runs * List.length samples) (sample_events samples)).
Proof.
  intros Hr. induction samples as [|[text expected] rest IH]; intros v st Ha.
  - exists (out v).
    cbn [for_each sample_latencies scored sample_events List.length].
    unfold ret. rewrite !app_nil_r, !Nat.mul_0_r, advance_0.
    change (count_correct []) with 0. rewrite Nat.add_0_r. now destruct v.
  - destruct Ha as [Ha1 Ha2].
    cbn [for_each]. unfold bind at 1.
    rewrite (score_sample_ok text expected v st Hr Ha1).
    destruct (IH (mkLocals (Some (first_item (Nat.pred runs + calls st) text))
                    (latencies_ms v ++ run_latencies runs (reads st))
                    (if String.eqb
                          (normalize_label
                             (label (first_item (Nat.pred runs + calls st) text)))
                          expected
                     then correct v + 1 else correct v)
                    (preds_so_far v ++
                     [(text, expected,
                       normalize_label
                         (label (first_item (Nat.pred runs + calls st) text)),
                       score (first_item (Nat.pred runs + calls st) text))]))
                 (advance st (2 * runs) runs (run_events runs text)))
      as [o Ho].
    { exact Ha2. }
    exists o. rewrite Ho. clear Ho.
    cbn [latencies_ms correct preds_so_far]. rewrite advance_advance.
    cbn [sample_latencies scored sample_events List.length].
    rewrite count_correct_cons. fold runs.
    change (calls (advance st (2 * runs) runs (run_events runs text)))
      with (runs + calls st).
    change (reads (advance st (2 * runs) runs (run_events runs text)))
      with (2 * runs + reads st).
    rewrite <- !app_assoc. cbn [app].
    f_equal; [f_equal|f_equal; lia].
    f_equal. destruct (String.eqb _ expected); lia.
Qed.

Lemma run_latencies_length (k r : nat) : List.length (run_latencies k r) = k.
Proof.
  revert r. induction k as [|k IH]; intros r; simpl; [reflexivity|].
  now rewrite IH.
Qed.

Lemma sample_latencies_length (samples : list (string * string)) (r : nat) :
  List.length (sample_latencies r samples) = List.length samples * runs.
Proof.
  revert r. induction samples as [|s rest IH]; intros r; simpl; [reflexivity|].
  now rewrite length_app, run_latencies_length, IH.
Qed.

Lemma scored_samples (samples : list (string * string)) (c : nat) :
  map (fun p : prediction => let '(text, expected, _, _) := p in (text, expected))
      (scored c samples)
  = samples.
Proof.
  revert c. induction samples as [|[text expected] rest IH]; intros c; simpl;
    [reflexivity|].
  now rewrite IH.
Qed.

(** Entry [i] of the recorded predictions comes from call
    [c + i * runs + (runs - 1)], the last of the calls made for sample [i]. *)
Lemma scored_nth (samples : list (string * string)) :
  forall (c i : nat) (text expected : string),
    nth_error samples i = Some (text, expected) ->
    nth_error (scored c samples) i
    = Some (text, expected,
            normalize_label (label (first_item (c + i * runs + Nat.pred runs) text)),
            score (first_item (c + i * runs + Nat.pred runs) text)).
Proof.
  induction samples as [|[t e] rest IH]; intros c i text expected H.
  - destruct i; discriminate.
  - destruct i as [|i]; simpl in H.
    + injection H as -> ->. simpl. fold runs.
      replace (c + 0 + Nat.pred runs) with (Nat.pred runs + c) by lia.
      reflexivity.
    + simpl. fold runs. rewrite (IH (runs + c) i text expected H).
      replace (runs + c + i * runs + Nat.pred runs)
        with (c + (runs + i * runs) + Nat.pred runs) by lia.
      reflexivity.
Qed.

Lemma all_answered_nth (samples : list (string * string)) :
  forall (c i j : nat) (text expected : string),
    all_answered c samples ->
    nth_error samples i = Some (text, expected) ->
    j < runs ->
    answer (c + i * runs + j) text <> None.
Proof.
  induction samples as [|[t e] rest IH]; intros c i j text expected Ha H Hj.
  - destruct i; discriminate.
  - destruct Ha as [Ha1 Ha2]. destruct i as [|i]; simpl in H.
    + injection H as -> ->.
      replace (c + 0 * runs + j) with (j + c) by lia. now apply Ha1.
    + replace (c + S i * runs + j) with (runs + c + i * runs + j) by (simpl; lia).
      now apply (IH (runs + c) i j text expected).
Qed.

Lemma measure_ok (st : state) (outs : list raw_prediction) :
  load w m = None ->
  infer w (calls st) m "warmup" = Ok outs ->
  0 < runs ->
  all_answered (1 + calls st) (SAMPLES cfg) ->
  exists o,
    measure w cfg m st
    = (Ok (mkLocals o
                    (sample_latencies (reads st) (SAMPLES cfg))
                    (count_correct (scored (1 + calls st) (SAMPLES cfg)))
                    (scored (1 + calls st) (SAMPLES cfg))),
       advance st (2 * runs * List.length (SAMPLES cfg))
               (1 + runs * List.length (SAMPLES cfg))
               (run_log (SAMPLES cfg))).
Proof.
  intros Hl Hw Hr Ha.
  set (st2 := advance st 0 1 [EvPipeline m; EvCall m "warmup"]).
  assert (E : measure w cfg m st
              = for_each (SAMPLES cfg) (score_sample w cfg m)
                         (mkLocals None [] 0 []) st2).
  { unfold measure, bind, pipeline, call. rewrite Hl. cbn [calls]. rewrite Hw.
    unfold st2, advance. simpl. now rewrite <- app_assoc. }
  rewrite E.
  destruct (sample_loop_ok (SAMPLES cfg) Hr (mkLocals None [] 0 []) st2 Ha)
    as [o Ho].
  exists o. rewrite Ho. unfold st2. rewrite advance_advance.
  cbn [latencies_ms correct preds_so_far app].
  change (calls (advance st 0 1 [EvPipeline m; EvCall m "warmup"]))
    with (1 + calls st).
  change (reads (advance st 0 1 [EvPipeline m; EvCall m "warmup"]))
    with (reads st).
  unfold run_log. f_equal. f_equal; lia.
Qed.

Lemma summarise_ok (v : locals) :
  latencies_ms v <> [] ->
  SAMPLES cfg <> [] ->
  exists avg mn mx med p,
    mean (latencies_ms v) = Ok avg
    /\ py_min (latencies_ms v) = Ok mn
    /\ py_max (latencies_ms v) = Ok mx
    /\ median (latencies_ms v) = Ok med
    /\ p95 (latencies_ms v) = Ok p
    /\ summarise cfg v
       = Ok (mkMetrics avg mn mx med p
               (Qdiv (inject_Z (Z.of_nat (correct v)))
                     (inject_Z (Z.of_nat (List.length (SAMPLES cfg)))))
               (preds_so_far v) (List.length (SAMPLES cfg)) runs).
Proof.
  intros Hl Hs.
  destruct StatsFacts.statistics_nonempty with (l := latencies_ms v)
    as ((avg & Ha) & (mn & Hmn) & (mx & Hmx) & (med & Hmed) & (p & Hp));
    [exact Hl|].
  exists avg, mn, mx, med, p. repeat (split; [assumption|]).
  unfold summarise. rewrite Ha, Hmn, Hmx, Hmed, Hp. simpl.
  unfold truediv.
  destruct (List.length (SAMPLES cfg) =? 0) eqn:E; [|reflexivity].
  apply Nat.eqb_eq in E. destruct (SAMPLES cfg); [congruence | discriminate].
Qed.

Lemma sample_latencies_nonempty (samples : list (string * string)) (r : nat) :
  0 < runs -> samples <> [] -> sample_latencies r samples <> [].
Proof.
  intros Hr Hs E. apply (f_equal (@List.length Q)) in E.
  rewrite sample_latencies_length in E. simpl in E.
  destruct samples; [congruence|]. simpl in E. lia.
Qed.

Lemma run_one_ok (st : state) :
  0 < runs ->
  SAMPLES cfg <> [] ->
  healthy st ->
  exists avg mn mx med p,
    run_one w cfg m st
    = (Ok (mkMetrics avg mn mx med p
             (Qdiv (inject_Z (Z.of_nat
                      (count_correct (scored (1 + calls st) (SAMPLES cfg)))))
                   (inject_Z (Z.of_nat (List.length (SAMPLES cfg)))))
             (scored (1 + calls st) (SAMPLES cfg))
             (List.length (SAMPLES cfg)) runs),
       advance st (2 * runs * List.length (SAMPLES cfg))
               (1 + runs * List.length (SAMPLES cfg))
               (run_log (SAMPLES cfg))).
Proof.
  intros Hr Hs (Hl & (outs & Hw) & Ha).
  destruct (measure_ok st outs Hl Hw Hr Ha) as [o Hm].
  match type of Hm with
  | _ = (Ok ?v, _) =>
      destruct (summarise_ok v) as (avg & mn & mx & med & p & _ & _ & _ & _ & _ & E)
  end.
  { cbn [latencies_ms]. now apply sample_latencies_nonempty. }
  { exact Hs. }
  exists avg, mn, mx, med, p.
  unfold run_one, bind. rewrite Hm. unfold lift. rewrite E. reflexivity.
Qed.

Lemma run_one_load_fails (st : state) (e : exn) :
  load w m = Some e ->
  run_one w cfg m st = (Raise e, advance st 0 0 [EvPipeline m]).
Proof.
  intros H. unfold run_one, measure, bind, pipeline. now rewrite H.
Qed.

Lemma run_one_warmup_fails (st : state) (e : exn) :
  load w m = None ->
  infer w (calls st) m "warmup" = Raise e ->
  run_one w cfg m st
  = (Raise e, advance st 0 1 [EvPipeline m; EvCall m "warmup"]).
Proof.
  intros Hl H. unfold run_one, measure, bind, pipeline, call.
  rewrite Hl. cbn [calls]. rewrite H. unfold advance. simpl.
  now rewrite <- app_assoc.
Qed.

End OneModel.

Import Run.

Section Inversion.
Variable w : world.
Variable cfg : config.
Variable m : string.

Lemma timed_call_inv (text : string) (v v' : locals) (st st' : state) :
  timed_call w m text v st = (Ok v', st') ->
  answer w m (calls st) text <> None /\ calls st' = S (calls st).
Proof.
  unfold timed_call, bind, perf_counter, call, lift, ret, answer. simpl.
  destruct (infer w (calls st) m text) as [[|o outs]|e]; simpl; intros H;
    try discriminate.
  injection H as _ <-. split; [discriminate | reflexivity].
Qed.

Lemma timed_runs_inv (text : string) (k : nat) :
  forall (v v' : locals) (st st' : state),
    for_range k (timed_call w m text) v st = (Ok v', st') ->
    (forall j, j < k -> answer w m (j + calls st) text <> None)
    /\ calls st' = k + calls st.
Proof.
  induction k as [|k IH]; intros v v' st st' H.
  - injection H as _ <-. split; [intros j Hj; lia | reflexivity].
  - cbn [for_range] in H. unfold bind in H.
    destruct (timed_call w m text v st) as [[v1|e] st1] eqn:T; [|discriminate].
    destruct (timed_call_inv _ _ _ _ _ T) as [A C].
    destruct (IH _ _ _ _ H) as [A' C'].
    split; [|lia].
    intros [|j] Hj; [exact A|].
    replace (S j + calls st) with (j + calls st1) by lia.
    apply A'. lia.
Qed.

Lemma score_sample_inv (s : string * string) (v v' : locals) (st st' : state) :
  score_sample w cfg m s v st = (Ok v', st') ->
  (forall j, j < RUNS_PER_SAMPLE cfg -> answer w m (j + calls st) (fst s) <> None)
  /\ calls st' = RUNS_PER_SAMPLE cfg + calls st.
Proof.
  destruct s as [text expected]. unfold score_sample, bind.
  destruct (for_range _ _ v st) as [[v1|e] st1] eqn:F; [|discriminate].
  destruct (timed_runs_inv _ _ _ _ _ _ F) as [A C].
  destruct (out v1); unfold ret, raise; intros H; [|discriminate].
  injection H as _ <-. now split.
Qed.

Lemma sample_loop_inv (samples : list (string * string)) :
  forall (v v' : locals) (st st' : state),
    for_each samples (score_sample w cfg m) v st = (Ok v', st') ->
    all_answered w cfg m (calls st) samples.
Proof.
  induction samples as [|[text expected] rest IH]; intros v v' st st' H.
  - exact I.
  - cbn [for_each] in H. unfold bind in H.
    destruct (score_sample w cfg m (text, expected) v st) as [[v1|e] st1] eqn:S1;
      [|discriminate].
    destruct (score_sample_inv _ _ _ _ _ S1) as [A C].
    split; [exact A|]. rewrite <- C. exact (IH _ _ _ _ H).
Qed.

Lemma measure_inv (st st' : state) (v : locals) :
  measure w cfg m st = (Ok v, st') ->
  load w m = None
  /\ (exists outs, infer w (calls st) m "warmup" = Ok outs)
  /\ all_answered w cfg m (1 + calls st) (SAMPLES cfg)
  /\ (SAMPLES cfg = [] \/ 0 < RUNS_PER_SAMPLE cfg).
Proof.
  intros Hm. unfold measure, bind, pipeline in Hm.
  destruct (load w m) as [e|] eqn:L; [discriminate|].
  unfold call at 1 in Hm. cbn [calls] in Hm.
  destruct (infer w (calls st) m "warmup") as [outs|e] eqn:W; [|discriminate].
  split; [reflexivity|]. split; [now exists outs|].
  split; [exact (sample_loop_inv _ _ _ _ _ Hm)|].
  destruct (SAMPLES cfg) as [|[text expected] rest]; [now left | right].
  destruct (RUNS_PER_SAMPLE cfg) as [|k] eqn:R; [exfalso | lia].
  cbn [for_each] in Hm. unfold bind at 1, score_sample in Hm.
  rewrite R in Hm. cbn [for_range] in Hm.
  unfold bind at 1, ret at 1 in Hm. cbn [out] in Hm.
  unfold bind at 1, raise in Hm. discriminate.
Qed.

(** A model has a result only if the configuration has a sample and a
    run per sample, its pipeline was built and every one of its inference
    calls returned. *)
Lemma run_one_inv (st st' : state) (r : metrics) :
  run_one w cfg m st = (Ok r, st') ->
  0 < RUNS_PER_SAMPLE cfg /\ SAMPLES cfg <> [] /\ healthy w cfg m st.
Proof.
  unfold run_one, bind at 1.
  destruct (measure w cfg m st) as [[v|e] st1] eqn:Hm; [|discriminate].
  destruct (measure_inv _ _ _ Hm) as (Hl & Hw & Ha & Hc).
  intros Hs.
  assert (Hne : SAMPLES cfg <> []).
  { intros E. unfold measure, bind, pipeline in Hm. rewrite Hl in Hm.
    unfold call at 1 in Hm. cbn [calls] in Hm.
    destruct Hw as [outs Hw]. rewrite Hw, E in Hm.
    cbn [for_each] in Hm. unfold ret in Hm. injection Hm as <- _.
    unfold lift, summarise in Hs. cbn [latencies_ms mean bind_res] in Hs.
    discriminate. }
  split; [|split; [exact Hne | now repeat split]].
  destruct Hc as [E|H]; [contradiction | exact H].
Qed.

End Inversion.

Section Results.
Variable w : world.
Variable cfg : config.
Variable m : string.

(** What every result of [run_one] looks like. *)
Lemma run_one_result (st st' : state) (r : metrics) :
  run_one w cfg m st = (Ok r, st') ->
  preds r = scored w cfg m (1 + calls st) (SAMPLES cfg)
  /\ acc r = Qdiv (inject_Z (Z.of_nat (count_correct (preds r))))
                  (inject_Z (Z.of_nat (List.length (SAMPLES cfg))))
  /\ num_samples r = List.length (SAMPLES cfg)
  /\ runs_per_sample r = RUNS_PER_SAMPLE cfg.
Proof.
  intros H. destruct (run_one_inv w cfg m st st' r H) as (Hr & Hs & Hh).
  destruct (run_one_ok w cfg m st Hr Hs Hh) as (avg & mn & mx & med & p & E).
  rewrite H in E. injection E as -> _. now repeat split.
Qed.

(** What the loops of [run_one] leave behind whenever they complete. *)
Lemma measure_result (st st' : state) (v : locals) :
  measure w cfg m st = (Ok v, st') ->
  latencies_ms v = sample_latencies w cfg (reads st) (SAMPLES cfg)
  /\ st' = advance st (2 * RUNS_PER_SAMPLE cfg * List.length (SAMPLES cfg))
                   (1 + RUNS_PER_SAMPLE cfg * List.length (SAMPLES cfg))
                   (run_log cfg m (SAMPLES cfg)).
Proof.
  intros H. destruct (measure_inv w cfg m st st' v H) as (Hl & (outs & Hw) & Ha & Hc).
  destruct Hc as [E|Hr].
  - unfold measure, bind, pipeline in H. rewrite Hl in H.
    unfold call at 1 in H. cbn [calls] in H. rewrite Hw, E in H.
    cbn [for_each] in H. unfold ret in H. injection H as <- <-.
    rewrite E. cbn [latencies_ms sample_latencies List.length].
    split; [reflexivity|]. unfold advance, run_log. simpl.
    rewrite !Nat.mul_0_r, <- app_assoc. reflexivity.
  - destruct (measure_ok w cfg m st outs Hl Hw Hr Ha) as [o E].
    rewrite H in E. injection E as -> ->. now split.
Qed.

End Results.
End RunLemmas.

(** ** Claims about one model's evaluation *)

Module RunFacts.
Import Py World Benchmark Run RunLemmas Scenarios.

Ltac answered_everywhere :=
  unfold healthy;
  split; [reflexivity|];
  split;
  [ cbv beta iota delta [infer gold_world yes_world late_yes_world];
    repeat (destruct (_ =? _)); eexists; reflexivity
  | cbn [all_answered SAMPLES shipped RUNS_PER_SAMPLE];
    repeat match goal with
           | |- _ /\ _ => split
           | |- True => exact I
           | |- forall _, _ < _ -> _ <> None =>
               intros ? _; unfold answer;
               cbv beta iota delta [infer gold_world yes_world late_yes_world];
               repeat (destruct (_ =? _)); discriminate
           end ].

Lemma gold_world_healthy (m : string) (st : state) : healthy gold_world shipped m st.
Proof. answered_everywhere. Qed.

Lemma yes_world_healthy (m : string) (st : state) : healthy yes_world shipped m st.
Proof. answered_everywhere. Qed.

Lemma late_yes_world_healthy (m : string) (st : state) :
  healthy late_yes_world shipped m st.
Proof. answered_everywhere. Qed.

(** C7: whenever the loops of [run_one] complete, they have recorded one
    duration per timed call, [len(SAMPLES) * RUNS_PER_SAMPLE] in all (24 as
    shipped); the run has made one inference call more than that, the
    warm-up, which comes before the first clock reading; and the loops do
    complete when the pipeline loads and every call returns. *)
Theorem latency_sequence_length (w : world) (cfg : config) (m : string) (st : state) :
  (forall v st',
      measure w cfg m st = (Ok v, st') ->
      List.length (latencies_ms v)
      = List.length (SAMPLES cfg) * RUNS_PER_SAMPLE cfg
      /\ (cfg = shipped -> List.length (latencies_ms v) = 24)
      /\ calls st' = 1 + List.length (latencies_ms v) + calls st
      /\ reads st' = 2 * List.length (latencies_ms v) + reads st
      /\ log st'
         = log st ++ EvPipeline m :: EvCall m "warmup"
                       :: sample_events cfg m (SAMPLES cfg))
  /\ (0 < RUNS_PER_SAMPLE cfg ->
      healthy w cfg m st ->
      exists v st', measure w cfg m st = (Ok v, st')).
Proof.
  split.
  - intros v st' H. destruct (measure_result w cfg m st st' v H) as [-> ->].
    rewrite sample_latencies_length.
    split; [reflexivity|]. split; [intros ->; reflexivity|].
    unfold advance. cbn [calls reads log]. repeat split; lia.
  - intros Hr (Hl & (outs & Hw) & Ha).
    destruct (measure_ok w cfg m st outs Hl Hw Hr Ha) as [o Hm].
    eexists. eexists. exact Hm.
Qed.

Lemma latency_sequence_length_witness :
  exists v st',
    measure gold_world shipped "gold" initial = (Ok v, st')
    /\ List.length (latencies_ms v) = 24
    /\ calls st' = 25.
Proof.
  destruct (latency_sequence_length gold_world shipped "gold" initial)
    as (Hall & Hex).
  destruct Hex as (v & st' & E).
  - simpl. lia.
  - apply gold_world_healthy.
  - destruct (Hall v st' E) as (_ & H24 & Hc & _).
    exists v, st'. split; [exact E|]. split; [now apply H24|].
    rewrite Hc, (H24 eq_refl). reflexivity.
Defined.

(** C8: the prediction list of every model result has one entry per
    sample, in the order of the samples; and there is a result when the
    pipeline loads and every call returns. *)
Theorem prediction_list_follows_samples
  (w : world) (cfg : config) (m : string) (st : state) :
  (forall r st',
      run_one w cfg m st = (Ok r, st') ->
      map (fun p : prediction =>
             let '(text, expected, _, _) := p in (text, expected)) (preds r)
      = SAMPLES cfg
      /\ List.length (preds r) = List.length (SAMPLES cfg))
  /\ (0 < RUNS_PER_SAMPLE cfg ->
      SAMPLES cfg <> [] ->
      healthy w cfg m st ->
      exists r st', run_one w cfg m st = (Ok r, st')).
Proof.
  split.
  - intros r st' H. destruct (run_one_result w cfg m st st' r H) as (-> & _).
    pose proof (scored_samples w cfg m (SAMPLES cfg) (1 + calls st)) as M.
    split; [exact M|].
    rewrite <- M at 2. now rewrite length_map.
  - intros Hr Hs Hh.
    destruct (run_one_ok w cfg m st Hr Hs Hh) as (avg & mn & mx & med & p & E).
    eexists. eexists. exact E.
Qed.

Lemma prediction_list_follows_samples_witness :
  exists r st',
    run_one yes_world shipped "yes" initial = (Ok r, st')
    /\ List.length (preds r) = 8.
Proof.
  destruct (prediction_list_follows_samples yes_world shipped "yes" initial)
    as (Hall & Hex).
  destruct Hex as (r & st' & E).
  - simpl. lia.
  - discriminate.
  - apply yes_world_healthy.
  - destruct (Hall r st' E) as (_ & L).
    exists r, st'. split; [exact E | exact L].
Defined.

Lemma scored_agree (w1 w2 : world) (cfg : config) (m : string)
      (samples : list (string * string)) :
  forall c,
    (forall i text expected,
        nth_error samples i = Some (text, expected) ->
        answer w1 m (c + i * RUNS_PER_SAMPLE cfg + Nat.pred (RUNS_PER_SAMPLE cfg)) text
        = answer w2 m (c + i * RUNS_PER_SAMPLE cfg + Nat.pred (RUNS_PER_SAMPLE cfg)) text) ->
    scored w1 cfg m c samples = scored w2 cfg m c samples.
Proof.
  induction samples as [|[t e] rest IH]; intros c H; [reflexivity|].
  cbn [scored]. rewrite (IH (RUNS_PER_SAMPLE cfg + c)).
  - assert (E : first_item w1 m (Nat.pred (RUNS_PER_SAMPLE cfg) + c) t
                = first_item w2 m (Nat.pred (RUNS_PER_SAMPLE cfg) + c) t).
    { unfold first_item. specialize (H 0 t e eq_refl).
      replace (c + 0 * RUNS_PER_SAMPLE cfg + Nat.pred (RUNS_PER_SAMPLE cfg))
        with (Nat.pred (RUNS_PER_SAMPLE cfg) + c) in H by lia.
      now rewrite H. }
    now rewrite E.
  - intros i text expected Hn. specialize (H (S i) text expected Hn).
    replace (RUNS_PER_SAMPLE cfg + c + i * RUNS_PER_SAMPLE cfg
             + Nat.pred (RUNS_PER_SAMPLE cfg))
      with (c + S i * RUNS_PER_SAMPLE cfg + Nat.pred (RUNS_PER_SAMPLE cfg))
      by (simpl; lia).
    exact H.
Qed.

(** C6: in every model result the entry of sample [i] holds the
    normalised label and the score of the last of the calls made for that
    sample (call number [1 + i * runs + (runs - 1)] of the model's run, the
    warm-up being call 0).  What the earlier repeats return does not reach
    the result: two worlds that answer those last calls alike give the same
    predictions and the same accuracy. *)
Theorem scoring_uses_last_call
  (w1 w2 : world) (cfg : config) (m : string) (st : state) :
  (forall r1 s1,
      run_one w1 cfg m st = (Ok r1, s1) ->
      forall i text expected,
        nth_error (SAMPLES cfg) i = Some (text, expected) ->
        exists o,
          answer w1 m (1 + calls st + i * RUNS_PER_SAMPLE cfg
                       + (RUNS_PER_SAMPLE cfg - 1)) text = Some o
          /\ nth_error (preds r1) i
             = Some (text, expected, normalize_label (label o), score o))
  /\ (forall r1 s1 r2 s2,
         run_one w1 cfg m st = (Ok r1, s1) ->
         run_one w2 cfg m st = (Ok r2, s2) ->
         (forall i text expected,
             nth_error (SAMPLES cfg) i = Some (text, expected) ->
             answer w1 m (1 + calls st + i * RUNS_PER_SAMPLE cfg
                          + (RUNS_PER_SAMPLE cfg - 1)) text
             = answer w2 m (1 + calls st + i * RUNS_PER_SAMPLE cfg
                            + (RUNS_PER_SAMPLE cfg - 1)) text) ->
         preds r2 = preds r1 /\ acc r2 = acc r1)
  /\ (0 < RUNS_PER_SAMPLE cfg ->
      SAMPLES cfg <> [] ->
      healthy w1 cfg m st ->
      exists r1 s1, run_one w1 cfg m st = (Ok r1, s1)).
Proof.
  split; [|split].
  - intros r1 s1 H i text expected Hn.
    destruct (run_one_inv w1 cfg m st s1 r1 H) as (Hr & _ & _ & _ & Ha).
    destruct (run_one_result w1 cfg m st s1 r1 H) as (-> & _).
    pose proof (all_answered_nth w1 cfg m (SAMPLES cfg) (1 + calls st) i
                  (RUNS_PER_SAMPLE cfg - 1) text expected Ha Hn) as Hans.
    destruct (answer w1 m (1 + calls st + i * RUNS_PER_SAMPLE cfg
                           + (RUNS_PER_SAMPLE cfg - 1)) text) as [o|] eqn:A.
    2:{ exfalso. apply Hans; [lia | reflexivity]. }
    exists o. split; [reflexivity|].
    rewrite (scored_nth w1 cfg m (SAMPLES cfg) (1 + calls st) i text expected Hn).
    unfold first_item. rewrite <- Nat.sub_1_r, A. reflexivity.
  - intros r1 s1 r2 s2 H1 H2 Hag.
    destruct (run_one_result w1 cfg m st s1 r1 H1) as (P1 & A1 & _).
    destruct (run_one_result w2 cfg m st s2 r2 H2) as (P2 & A2 & _).
    assert (Es : preds r2 = preds r1).
    { rewrite P1, P2. symmetry. apply scored_agree. intros i text expected Hn.
      rewrite <- Nat.sub_1_r. now apply (Hag i text expected). }
    split; [exact Es|]. now rewrite A1, A2, Es.
  - intros Hr Hs Hh.
    destruct (run_one_ok w1 cfg m st Hr Hs Hh) as (avg & mn & mx & med & p & E).
    eexists. eexists. exact E.
Qed.

Lemma scoring_uses_last_call_witness :
  exists r1 s1 r2 s2,
    run_one late_yes_world shipped "m" initial = (Ok r1, s1)
    /\ run_one yes_world shipped "m" initial = (Ok r2, s2)
    /\ nth_error (preds r1) 0
       = Some ("I absolutely love this!", "positive", "positive", Qmake 9 10)
    /\ preds r2 = preds r1
    /\ acc r2 = acc r1.
Proof.
  destruct (scoring_uses_last_call late_yes_world yes_world shipped "m" initial)
    as (Hlast & Hsame & Hex1).
  destruct (scoring_uses_last_call yes_world late_yes_world shipped "m" initial)
    as (_ & _ & Hex2).
  destruct Hex1 as (r1 & s1 & E1);
    [simpl; lia | discriminate | apply late_yes_world_healthy |].
  destruct Hex2 as (r2 & s2 & E2);
    [simpl; lia | discriminate | apply yes_world_healthy |].
  exists r1, s1, r2, s2. split; [exact E1|]. split; [exact E2|].
  split.
  - destruct (Hlast r1 s1 E1 0 "I absolutely love this!" "positive" eq_refl)
      as (o & A & N).
    vm_compute in A. injection A as <-. exact N.
  - apply (Hsame r1 s1 r2 s2 E1 E2).
    intros i text expected Hn.
    do 8 (destruct i as [|i]; [reflexivity|]).
    destruct i; discriminate.
Defined.

(** C9: the accuracy of every model result is the number of prediction
    entries whose normalised label equals the expected label, divided by
    the number of samples; on the shipped 8 samples, 8 correct give 1.0 and
    4 correct give 0.5. *)
Theorem accuracy_is_correct_over_total
  (w : world) (cfg : config) (m : string) (st : state) :
  (forall r st',
      run_one w cfg m st = (Ok r, st') ->
      acc r = Qdiv (inject_Z (Z.of_nat (count_correct (preds r))))
                   (inject_Z (Z.of_nat (List.length (SAMPLES cfg))))
      /\ preds r = scored w cfg m (1 + calls st) (SAMPLES cfg)
      /\ (cfg = shipped -> count_correct (preds r) = 8 -> Qeq (acc r) (Qmake 1 1))
      /\ (cfg = shipped -> count_correct (preds r) = 4 -> Qeq (acc r) (Qmake 1 2)))
  /\ (0 < RUNS_PER_SAMPLE cfg ->
      SAMPLES cfg <> [] ->
      healthy w cfg m st ->
      exists r st', run_one w cfg m st = (Ok r, st')).
Proof.
  split.
  - intros r st' H. destruct (run_one_result w cfg m st st' r H) as (P & A & _).
    split; [exact A|]. split; [exact P|].
    rewrite A. split; intros -> ->; reflexivity.
  - intros Hr Hs Hh.
    destruct (run_one_ok w cfg m st Hr Hs Hh) as (avg & mn & mx & med & p & E).
    eexists. eexists. exact E.
Qed.

Lemma accuracy_is_correct_over_total_witness :
  (exists r st',
      run_one gold_world shipped "gold" initial = (Ok r, st')
      /\ Qeq (acc r) (Qmake 1 1))
  /\ (exists r st',
         run_one yes_world shipped "yes" initial = (Ok r, st')
         /\ Qeq (acc r) (Qmake 1 2)).
Proof.
  split.
  - destruct (accuracy_is_correct_over_total gold_world shipped "gold" initial)
      as (Hall & Hex).
    destruct Hex as (r & st' & E);
      [simpl; lia | discriminate | apply gold_world_healthy |].
    destruct (Hall r st' E) as (_ & Hp & H8 & _).
    exists r, st'. split; [exact E|].
    apply H8; [reflexivity|]. rewrite Hp. vm_compute. reflexivity.
  - destruct (accuracy_is_correct_over_total yes_world shipped "yes" initial)
      as (Hall & Hex).
    destruct Hex as (r & st' & E);
      [simpl; lia | discriminate | apply yes_world_healthy |].
    destruct (Hall r st' E) as (_ & Hp & _ & H4).
    exists r, st'. split; [exact E|].
    apply H4; [reflexivity|]. rewrite Hp. vm_compute. reflexivity.
Defined.

End RunFacts.

(** ** Which exceptions can leave [run_one], and what it prints *)

Module Isolation.
Import Py World Benchmark Run RunLemmas Report.

Create HintDb tame.

Lemma catchable_Ok {A} (a : A) : catchable (Ok a).
Proof. intros e H. discriminate. Qed.

Lemma catchable_bind_res {A B} (r : res A) (k : A -> res B) :
  catchable r -> (forall a, catchable (k a)) -> catchable (bind_res r k).
Proof.
  intros Hr Hk. destruct r as [a|e]; simpl; [apply Hk|].
  intros e' H. injection H as <-. now apply Hr.
Qed.

Lemma catchable_getitem {A} (l : list A) (i : Z) : catchable (getitem l i).
Proof.
  unfold getitem, catchable. intros e.
  destruct (_ <? 0)%Z; [intros H; now injection H as <-|].
  destruct (nth_error l _); intros H; [discriminate | now injection H as <-].
Qed.

Lemma catchable_mean (l : list Q) : catchable (mean l).
Proof. destruct l; intros e H; [now injection H as <- | discriminate]. Qed.

Lemma catchable_py_min (l : list Q) : catchable (py_min l).
Proof. destruct l; intros e H; [now injection H as <- | discriminate]. Qed.

Lemma catchable_py_max (l : list Q) : catchable (py_max l).
Proof. destruct l; intros e H; [now injection H as <- | discriminate]. Qed.

Lemma catchable_median (l : list Q) : catchable (median l).
Proof.
  unfold median. destruct (_ =? 0); [intros e H; now injection H as <-|].
  destruct (_ =? 1); [apply catchable_getitem|].
  apply catchable_bind_res; [apply catchable_getitem|]. intros a.
  apply catchable_bind_res; [apply catchable_getitem|]. intros b.
  apply catchable_Ok.
Qed.

Lemma catchable_p95 (l : list Q) : catchable (p95 l).
Proof.
  unfold p95. destruct l; [apply catchable_Ok | apply catchable_getitem].
Qed.

Lemma catchable_truediv (a b : nat) : catchable (truediv a b).
Proof.
  unfold truediv. destruct (b =? 0); intros e H;
    [now injection H as <- | discriminate].
Qed.

#[global] Hint Resolve catchable_Ok catchable_bind_res catchable_getitem
  catchable_mean catchable_py_min catchable_py_max catchable_median
  catchable_p95 catchable_truediv : tame.

Lemma tame_ret {A} (a : A) : tame (ret a).
Proof.
  intros st r st' H. injection H as <- <-. split; [reflexivity|].
  apply catchable_Ok.
Qed.

Lemma tame_raise {A} (e : exn) : is_Exception e = true -> tame (@raise A e).
Proof.
  intros He st r st' H. injection H as <- <-. split; [reflexivity|].
  intros e' E. now injection E as <-.
Qed.

Lemma tame_lift {A} (r : res A) : catchable r -> tame (lift r).
Proof. intros Hr st r' st' H. injection H as <- <-. now split. Qed.

Lemma tame_bind {A B} (c : M A) (k : A -> M B) :
  tame c -> (forall a, tame (k a)) -> tame (bind c k).
Proof.
  intros Hc Hk st r st' H. unfold bind in H.
  destruct (c st) as [[a|e] st1] eqn:C; destruct (Hc _ _ _ C) as [S1 C1].
  - destruct (Hk a _ _ _ H) as [S2 C2]. split; [congruence | exact C2].
  - injection H as <- <-. split; [exact S1|].
    intros e' E. injection E as <-. now apply C1.
Qed.

Lemma tame_for_each {A S} (xs : list A) (body : A -> S -> M S) :
  (forall x acc, tame (body x acc)) -> forall acc, tame (for_each xs body acc).
Proof.
  intros Hb. induction xs as [|x xs IH]; intros acc; simpl.
  - apply tame_ret.
  - apply tame_bind; [apply Hb | exact IH].
Qed.

Lemma tame_for_range {S} (n : nat) (body : S -> M S) :
  (forall acc, tame (body acc)) -> forall acc, tame (for_range n body acc).
Proof.
  intros Hb. induction n as [|n IH]; intros acc; simpl.
  - apply tame_ret.
  - apply tame_bind; [apply Hb | exact IH].
Qed.

#[global] Hint Resolve tame_ret tame_raise tame_lift tame_bind tame_for_each
  tame_for_range : tame.

Lemma say_say (st : state) (a b : list line) : say (say st a) b = say st (a ++ b).
Proof. unfold say. simpl. now rewrite app_assoc. Qed.

Lemma say_nil (st : state) : say st [] = st.
Proof. destruct st. unfold say. simpl. now rewrite app_nil_r. Qed.

Lemma bind_print {B} (l : line) (k : unit -> M B) (st : state) :
  bind (print l) k st = k tt (say st [l]).
Proof. reflexivity. Qed.

Lemma bind_Ok {A B} (c : M A) (k : A -> M B) (st st' : state) (a : A) :
  c st = (Ok a, st') -> bind c k st = k a st'.
Proof. intros H. unfold bind. now rewrite H. Qed.

Lemma print_each {A} (f : A -> line) (xs : list A) :
  forall st, for_each xs (fun x _ => print (f x)) tt st = (Ok tt, say st (map f xs)).
Proof.
  induction xs as [|x xs IH]; intros st; simpl.
  - now rewrite say_nil.
  - rewrite bind_print, IH, say_say. reflexivity.
Qed.

Lemma print_details (rs : list result) :
  forall st,
    for_each rs
      (fun (r : result) (_ : unit) =>
         let '(_, pretty, m) := r in
         for_each (preds m) (fun p _ => print (detail_row pretty p)) tt) tt st
    = (Ok tt, say st (flat_map detail_rows rs)).
Proof.
  induction rs as [|[[model_id pretty] m] rs IH]; intros st; simpl.
  - now rewrite say_nil.
  - erewrite bind_Ok by apply print_each.
    rewrite IH, say_say. reflexivity.
Qed.

Section Oracle.
Variable w : world.
Variable cfg : config.

Hypothesis load_raises_Exception :
  forall m e, load w m = Some e -> is_Exception e = true.
Hypothesis infer_raises_Exception :
  forall k m text e, infer w k m text = Raise e -> is_Exception e = true.

Local Abbreviation attempts := (Report.attempts w cfg).

Lemma tame_pipeline (m : string) : tame (pipeline w m).
Proof.
  intros st r st' H. unfold pipeline in H.
  destruct (load w m) as [e|] eqn:L; injection H as <- <-;
    (split; [reflexivity|]).
  - intros e' E. injection E as <-. now apply (load_raises_Exception m).
  - apply catchable_Ok.
Qed.

Lemma tame_call (clf text : string) : tame (call w clf text).
Proof.
  intros st r st' H. unfold call in H. injection H as <- <-.
  split; [reflexivity|]. intros e E.
  now apply (infer_raises_Exception (calls st) clf text).
Qed.

Lemma tame_perf_counter : tame (perf_counter w).
Proof.
  intros st r st' H. injection H as <- <-. split; [reflexivity|].
  apply catchable_Ok.
Qed.

Hint Resolve tame_pipeline tame_call tame_perf_counter : tame.

Lemma tame_timed_call (clf text : string) (v : locals) :
  tame (timed_call w clf text v).
Proof. unfold timed_call. auto 10 with tame. Qed.

Hint Resolve tame_timed_call : tame.

Lemma tame_score_sample (clf : string) (s : string * string) (v : locals) :
  tame (score_sample w cfg clf s v).
Proof.
  unfold score_sample. destruct s as [text expected].
  apply tame_bind; [auto with tame|]. intros v1.
  apply tame_bind; [|auto with tame].
  destruct (out v1); auto with tame.
Qed.

Hint Resolve tame_score_sample : tame.

Lemma tame_run_one (m : string) : tame (run_one w cfg m).
Proof.
  unfold run_one, measure, summarise.
  apply tame_bind; [auto 10 with tame|]. intros v.
  apply tame_lift. auto 20 with tame.
Qed.

Lemma evaluate_step (model_id pretty : string) (acc : list result) (st : state) :
  evaluate w cfg (model_id, pretty) acc st
  = match run_one w cfg model_id (say st [Loading model_id]) with
    | (Ok r, st1) => (Ok (acc ++ [(model_id, pretty, r)]), st1)
    | (Raise e, st1) => (Ok acc, say st1 [Failed model_id e])
    end.
Proof.
  unfold evaluate, bind at 1, print. fold (say st [Loading model_id]).
  unfold try_except, bind at 1.
  destruct (run_one w cfg model_id (say st [Loading model_id]))
    as [[r|e] st1] eqn:R; [reflexivity|].
  destruct (tame_run_one model_id _ _ _ R) as [_ C].
  rewrite (C e eq_refl). reflexivity.
Qed.

Lemma evaluation_loop (models : list (string * string)) :
  forall (acc : list result) (st : state),
    for_each models (evaluate w cfg) acc st
    = (Ok (acc ++ successes (fst (attempts models st))), snd (attempts models st))
    /\ stdout (snd (attempts models st))
       = stdout st ++ progress (fst (attempts models st))
    /\ map (fun o : string * string * res metrics => fst o)
           (fst (attempts models st))
       = models.
Proof.
  induction models as [|[model_id pretty] rest IH]; intros acc st.
  - simpl. unfold ret. now rewrite !app_nil_r.
  - cbn [for_each Report.attempts]. unfold bind at 1. rewrite evaluate_step.
    destruct (run_one w cfg model_id (say st [Loading model_id]))
      as [[r|e] st1] eqn:R;
      destruct (tame_run_one model_id _ _ _ R) as [Hs _]; simpl in Hs.
    + destruct (IH (acc ++ [(model_id, pretty, r)]) st1) as (E & Hp & Hm).
      destruct (attempts rest st1) as [outs st3]. simpl in *.
      rewrite E, Hp, Hs, Hm, <- !app_assoc. repeat split.
    + destruct (IH acc (say st1 [Failed model_id e])) as (E & Hp & Hm).
      destruct (attempts rest (say st1 [Failed model_id e])) as [outs st3].
      simpl in *.
      rewrite E, Hp, Hs, Hm, <- !app_assoc. repeat split.
Qed.

Lemma main_report (st : state) :
  main w cfg st
  = (Ok tt,
     say (snd (attempts (MODELS cfg) st))
         (report cfg (successes (fst (attempts (MODELS cfg) st))))).
Proof.
  unfold main.
  destruct (evaluation_loop (MODELS cfg) [] st) as (E & _ & _).
  simpl app in E. rewrite (bind_Ok _ _ _ _ _ E).
  rewrite !bind_print.
  erewrite bind_Ok by apply print_each.
  rewrite !bind_print.
  erewrite bind_Ok by apply print_details.
  change (print (Plain "</details>")) with
    (fun st0 => (Ok tt, say st0 [Plain "</details>"])).
  cbv beta. rewrite !say_say. unfold report.
  reflexivity.
Qed.

End Oracle.

Lemma filter_keep {A} (p : A -> bool) (l : list A) :
  Forall (fun x => p x = true) l -> filter p l = l.
Proof.
  induction 1 as [|x l Hx _ IH]; simpl; [reflexivity|]. now rewrite Hx, IH.
Qed.

Lemma filter_drop {A} (p : A -> bool) (l : list A) :
  Forall (fun x => p x = false) l -> filter p l = [].
Proof.
  induction 1 as [|x l Hx _ IH]; simpl; [reflexivity|]. now rewrite Hx.
Qed.

Lemma summary_rows_shape (rs : list result) :
  Forall (fun l => is_summary_row l = true /\ is_detail_row l = false
                   /\ is_failure l = false) (map summary_row rs).
Proof.
  apply Forall_forall. intros l H. apply in_map_iff in H.
  destruct H as ([[model_id pretty] r] & <- & _). now repeat split.
Qed.

Lemma detail_rows_shape (rs : list result) :
  Forall (fun l => is_summary_row l = false /\ is_detail_row l = true
                   /\ is_failure l = false) (flat_map detail_rows rs).
Proof.
  apply Forall_forall. intros l H. apply in_flat_map in H.
  destruct H as ([[model_id pretty] r] & _ & H). unfold detail_rows in H.
  apply in_map_iff in H. destruct H as ([[[t e] pl] c] & <- & _).
  now repeat split.
Qed.

Lemma progress_rows (outs : list (string * string * res metrics)) :
  filter is_summary_row (progress outs) = []
  /\ filter is_detail_row (progress outs) = []
  /\ filter is_failure (progress outs) = failures outs.
Proof.
  induction outs as [|[[model_id pretty] [r|e]] outs (I1 & I2 & I3)]; simpl;
    [now repeat split | |]; rewrite I1, I2, I3; now repeat split.
Qed.

(** What the run prints, sorted by kind of line: one summary row per
    result, the detail rows of the results, one failure line per model
    that raised. *)
Lemma printed_rows (cfg : config) (outs : list (string * string * res metrics)) :
  let printed := progress outs ++ report cfg (successes outs) in
  filter is_summary_row printed = map summary_row (successes outs)
  /\ filter is_detail_row printed = flat_map detail_rows (successes outs)
  /\ filter is_failure printed = failures outs.
Proof.
  destruct (progress_rows outs) as (P1 & P2 & P3).
  pose proof (summary_rows_shape (successes outs)) as S.
  pose proof (detail_rows_shape (successes outs)) as D.
  cbv zeta. unfold report. rewrite !filter_app, P1, P2, P3.
  cbn [filter is_summary_row is_detail_row is_failure app].
  repeat split.
  - rewrite (filter_keep is_summary_row (map summary_row _)),
            (filter_drop is_summary_row (flat_map detail_rows _)).
    + now rewrite app_nil_r.
    + eapply Forall_impl; [|exact D]. now intros l (? & ? & ?).
    + eapply Forall_impl; [|exact S]. now intros l (? & ? & ?).
  - rewrite (filter_drop is_detail_row (map summary_row _)),
            (filter_keep is_detail_row (flat_map detail_rows _)).
    + now rewrite app_nil_r.
    + eapply Forall_impl; [|exact D]. now intros l (? & ? & ?).
    + eapply Forall_impl; [|exact S]. now intros l (? & ? & ?).
  - rewrite (filter_drop is_failure (map summary_row _)),
            (filter_drop is_failure (flat_map detail_rows _)).
    + now rewrite app_nil_r.
    + eapply Forall_impl; [|exact D]. now intros l (? & ? & ?).
    + eapply Forall_impl; [|exact S]. now intros l (? & ? & ?).
Qed.

(** C2: as long as what the inference library raises is an [Exception],
    [main] returns normally whatever happens to single models.  Every model
    of the configuration is tried in turn; a model whose [run_one] raises
    gets a failure line with its identifier and the error, and neither a
    summary row nor detail rows; the report has exactly one summary row
    per model whose [run_one] returned.  A model has a result only if its
    pipeline was built and each of its inference calls returned. *)
Theorem failure_isolation (w : world) (cfg : config) (st : state) :
  (forall m e, load w m = Some e -> is_Exception e = true) ->
  (forall k m text e, infer w k m text = Raise e -> is_Exception e = true) ->
  let outs := fst (attempts w cfg (MODELS cfg) st) in
  exists st' printed,
    main w cfg st = (Ok tt, st')
    /\ map (fun o : string * string * res metrics => fst o) outs = MODELS cfg
    /\ stdout st' = stdout st ++ printed
    /\ printed = progress outs ++ report cfg (successes outs)
    /\ filter is_summary_row printed = map summary_row (successes outs)
    /\ filter is_detail_row printed = flat_map detail_rows (successes outs)
    /\ filter is_failure printed = failures outs
    /\ (forall model_id st0 r st1,
           run_one w cfg model_id st0 = (Ok r, st1) -> healthy w cfg model_id st0)
    /\ (forall model_id st0 e,
           load w model_id = Some e -> fst (run_one w cfg model_id st0) = Raise e).
Proof.
  intros Hl Hi outs.
  destruct (evaluation_loop w cfg Hl Hi (MODELS cfg) [] st) as (_ & Hp & Hm).
  destruct (printed_rows cfg outs) as (F1 & F2 & F3).
  eexists. exists (progress outs ++ report cfg (successes outs)).
  split; [apply (main_report w cfg Hl Hi)|].
  split; [exact Hm|].
  split; [cbn [stdout say]; rewrite Hp; now rewrite <- app_assoc|].
  split; [reflexivity|].
  split; [exact F1|]. split; [exact F2|]. split; [exact F3|].
  split; [intros model_id st0 r st1 H; now apply (run_one_inv w cfg model_id st0 st1 r)|].
  intros model_id st0 e H. now rewrite (run_one_load_fails w cfg model_id st0 e H).
Qed.

Lemma failure_isolation_witness :
  (exists st',
      main Scenarios.b_fails_world Scenarios.two_models initial = (Ok tt, st')
      /\ List.length (filter is_summary_row (stdout st')) = 1
      /\ filter is_failure (stdout st')
         = [Failed "B" (LibraryError "no such model")])
  /\ (exists st',
         main Scenarios.b_breaks_world Scenarios.two_models initial = (Ok tt, st')
         /\ List.length (filter is_summary_row (stdout st')) = 1
         /\ filter is_failure (stdout st')
            = [Failed "B" (LibraryError "inference failed")]).
Proof.
  split.
  - destruct (failure_isolation Scenarios.b_fails_world Scenarios.two_models initial)
      as (st' & printed & E & _ & Hs & _ & F1 & _ & F3 & _).
    + intros m e. unfold Scenarios.b_fails_world. cbn [load].
      destruct (String.eqb m "B"); intros H; [|discriminate].
      now injection H as <-.
    + intros k m text e H. discriminate H.
    + exists st'. split; [exact E|].
      rewrite Hs. cbn [stdout initial app]. rewrite F1, F3.
      split; vm_compute; reflexivity.
  - destruct (failure_isolation Scenarios.b_breaks_world Scenarios.two_models initial)
      as (st' & printed & E & _ & Hs & _ & F1 & _ & F3 & _).
    + intros m e H. discriminate H.
    + intros k m text e. unfold Scenarios.b_breaks_world. cbn [infer].
      destruct (_ && _); intros H; [|discriminate].
      now injection H as <-.
    + exists st'. split; [exact E|].
      rewrite Hs. cbn [stdout initial app]. rewrite F1, F3.
      split; vm_compute; reflexivity.
Defined.

End Isolation.

(** ** The warm-up call *)

Module WarmUp.
Import Py World Benchmark Run RunLemmas Report Isolation Scenarios.

Lemma evaluate_warmup_fails
  (w : world) (cfg : config) (m pretty : string) (e : exn)
  (acc : list result) (st : state) :
  load w m = None ->
  infer w (calls st) m "warmup" = Raise e ->
  is_Exception e = true ->
  evaluate w cfg (m, pretty) acc st
  = (Ok acc,
     say (advance (say st [Loading m]) 0 1 [EvPipeline m; EvCall m "warmup"])
         [Failed m e]).
Proof.
  intros Hl Hw He. unfold evaluate. rewrite bind_print.
  unfold try_except, bind at 1.
  rewrite (run_one_warmup_fails w cfg m (say st [Loading m]) e Hl Hw), He.
  reflexivity.
Qed.

Lemma _get_pipeline_warmup_fails (w : world) (m : string) (e : exn) (st : state) :
  BenchmarkUI.cached m st = None ->
  load w m = None ->
  infer w (calls st) m "warmup" = Raise e ->
  is_Exception e = true ->
  exists st',
    BenchmarkUI._get_pipeline w m st = (Ok m, st')
    /\ BenchmarkUI.cached m st' = Some m
    /\ calls st' = 1 + calls st.
Proof.
  intros Hc Hl Hw He. unfold BenchmarkUI._get_pipeline. rewrite Hc.
  unfold bind at 1, pipeline. rewrite Hl.
  unfold bind at 1, BenchmarkUI.store.
  unfold bind at 1, try_except, bind at 1, call. cbn [calls]. rewrite Hw, He.
  unfold ret. eexists. split; [reflexivity|].
  unfold BenchmarkUI.cached. cbn [_PIPELINES find fst snd calls].
  now rewrite String.eqb_refl.
Qed.

(** C4, where the claim fails: in [benchmark.py] a warm-up call that
    raises is not swallowed.  With a model whose warm-up raises and whose
    every other call would return, [run_one] raises, no timed call is made,
    and the report has a failure line and no row for the model. *)
Lemma warmup_failure_not_swallowed :
  fst (run_one cold_world shipped "m" initial) = Raise (LibraryError "cold start")
  /\ reads (snd (run_one cold_world shipped "m" initial)) = 0
  /\ (forall k text, text <> "warmup" ->
        infer cold_world k "m" text = Ok [mkRaw (Some "POSITIVE") (Qmake 9 10)])
  /\ fst (main cold_world shipped initial) = Ok tt
  /\ filter is_summary_row (stdout (snd (main cold_world shipped initial))) = []
  /\ List.length (filter is_failure (stdout (snd (main cold_world shipped initial))))
     = 3.
Proof.
  split; [reflexivity|]. split; [reflexivity|]. split.
  - intros k text H. unfold cold_world. cbn [infer].
    destruct (String.eqb text "warmup") eqn:E; [|reflexivity].
    apply String.eqb_eq in E. contradiction.
  - repeat split; vm_compute; reflexivity.
Qed.

(** C4, as the code has it.  In [benchmark.py] exactly one inference call,
    the warm-up, is made before the first clock reading, and every later
    call lies between two readings (the loops complete when the pipeline
    loads and every call returns).  A warm-up call that raises makes
    [run_one] raise before any timed call; [main] catches it like any other
    failure of that model, prints the failure line and goes on.  Only the
    UI's [_get_pipeline] swallows a warm-up failure and still returns the
    pipeline. *)
Theorem warmup_call (w : world) (cfg : config) (m pretty : string) (st : state) :
  (forall v st',
      measure w cfg m st = (Ok v, st') ->
      log st' = log st ++ EvPipeline m :: EvCall m "warmup"
                             :: sample_events cfg m (SAMPLES cfg)
      /\ calls st' = 1 + List.length (latencies_ms v) + calls st
      /\ reads st' = 2 * List.length (latencies_ms v) + reads st)
  /\ (0 < RUNS_PER_SAMPLE cfg -> healthy w cfg m st ->
      exists v st', measure w cfg m st = (Ok v, st'))
  /\ (forall e acc,
         load w m = None ->
         infer w (calls st) m "warmup" = Raise e ->
         is_Exception e = true ->
         (exists st1,
             run_one w cfg m st = (Raise e, st1) /\ reads st1 = reads st)
         /\ (exists st2,
                evaluate w cfg (m, pretty) acc st = (Ok acc, st2)
                /\ stdout st2 = stdout st ++ [Loading m; Failed m e]))
  /\ (forall e,
         BenchmarkUI.cached m st = None ->
         load w m = None ->
         infer w (calls st) m "warmup" = Raise e ->
         is_Exception e = true ->
         exists st',
           BenchmarkUI._get_pipeline w m st = (Ok m, st')
           /\ BenchmarkUI.cached m st' = Some m).
Proof.
  split; [|split; [|split]].
  - intros v st' H. destruct (measure_result w cfg m st st' v H) as [-> ->].
    rewrite sample_latencies_length.
    unfold advance. cbn [calls reads log]. repeat split; lia.
  - intros Hr (Hl & (outs & Hw) & Ha).
    destruct (measure_ok w cfg m st outs Hl Hw Hr Ha) as [o Hm].
    eexists. eexists. exact Hm.
  - intros e acc Hl Hw He. split.
    + eexists. split; [exact (run_one_warmup_fails w cfg m st e Hl Hw) | reflexivity].
    + eexists.
      split; [exact (evaluate_warmup_fails w cfg m pretty e acc st Hl Hw He)|].
      cbn [stdout say advance]. now rewrite <- app_assoc.
  - intros e Hc Hl Hw He.
    destruct (_get_pipeline_warmup_fails w m e st Hc Hl Hw He) as (st' & E & C & _).
    now exists st'.
Qed.

Lemma warmup_call_witness :
  (exists v st',
      measure yes_world shipped "yes" initial = (Ok v, st')
      /\ calls st' = 1 + List.length (latencies_ms v))
  /\ (exists st1,
         run_one cold_world shipped "m" initial
         = (Raise (LibraryError "cold start"), st1))
  /\ (exists st',
         BenchmarkUI._get_pipeline cold_world "m" initial = (Ok "m", st')).
Proof.
  destruct (warmup_call yes_world shipped "yes" "Yes" initial)
    as (Hall & Hex & _ & _).
  destruct (warmup_call cold_world shipped "m" "M" initial) as (_ & _ & Hb & Hc).
  split; [|split].
  - destruct Hex as (v & st' & E).
    + simpl. lia.
    + apply RunFacts.yes_world_healthy.
    + destruct (Hall v st' E) as (_ & C & _).
      exists v, st'. split; [exact E|]. rewrite C. cbn [calls initial]. lia.
  - destruct (Hb (LibraryError "cold start") []) as ((st1 & E & _) & _);
      try reflexivity.
    now exists st1.
  - destruct (Hc (LibraryError "cold start")) as (st' & E & _);
      try reflexivity.
    now exists st'.
Defined.

End WarmUp.

(** ** The index of [p95] in IEEE binary64 *)

Module Binary64Check.
Import Py Binary64.

(** For every list of up to 4096 values the binary64 computation of the
    index and the exact one agree. *)
Lemma index64_exact :
  forallb (fun k => Z.eqb (index64 (Z.of_nat k))
                          (int (Qmult (Qmake 95 100) (inject_Z (Z.of_nat k)))))
          (seq 0 4096)
  = true.
Proof. vm_compute. reflexivity. Qed.

End Binary64Check.

(** * Further properties of the harness *)

(** ** The statistics lie between the smallest and the largest latency *)

Module StatsBounds.
Import Py World Benchmark StatsFacts RunLemmas.
Local Open Scope Q_scope.

Lemma fold_min_spec (l : list Q) :
  forall x,
    let v := fold_left (fun cur item => if Qltb item cur then item else cur) l x in
    In v (x :: l) /\ forall y, In y (x :: l) -> v <= y.
Proof.
  induction l as [|a l IH]; intros x; cbn [fold_left].
  - split; [now left|]. intros y [<-|[]]. apply Qle_refl.
  - destruct (IH (if Qltb a x then a else x)) as [Hin Hle].
    set (v := fold_left _ l _) in *. split.
    + destruct Hin as [E|Hin]; [|right; now right].
      rewrite <- E. destruct (Qltb a x); [right; now left | now left].
    + assert (Hx' : v <= (if Qltb a x then a else x)) by (apply Hle; now left).
      intros y [<-|[<-|Hy]].
      * eapply Qle_trans; [exact Hx'|].
        destruct (Qltb a x) eqn:E; [|apply Qle_refl].
        apply Qlt_le_weak. now apply Qltb_lt.
      * eapply Qle_trans; [exact Hx'|].
        destruct (Qltb a x) eqn:E; [apply Qle_refl|]. now apply Qltb_ge.
      * apply Hle. now right.
Qed.

Lemma fold_max_spec (l : list Q) :
  forall x,
    let v := fold_left (fun cur item => if Qltb cur item then item else cur) l x in
    In v (x :: l) /\ forall y, In y (x :: l) -> y <= v.
Proof.
  induction l as [|a l IH]; intros x; cbn [fold_left].
  - split; [now left|]. intros y [<-|[]]. apply Qle_refl.
  - destruct (IH (if Qltb x a then a else x)) as [Hin Hle].
    set (v := fold_left _ l _) in *. split.
    + destruct Hin as [E|Hin]; [|right; now right].
      rewrite <- E. destruct (Qltb x a); [right; now left | now left].
    + assert (Hx' : (if Qltb x a then a else x) <= v) by (apply Hle; now left).
      intros y [<-|[<-|Hy]].
      * eapply Qle_trans; [|exact Hx'].
        destruct (Qltb x a) eqn:E; [|apply Qle_refl].
        apply Qlt_le_weak. now apply Qltb_lt.
      * eapply Qle_trans; [|exact Hx'].
        destruct (Qltb x a) eqn:E; [apply Qle_refl|]. now apply Qltb_ge.
      * apply Hle. now right.
Qed.

Lemma py_min_spec (l : list Q) (v : Q) :
  py_min l = Ok v -> In v l /\ forall y, In y l -> v <= y.
Proof.
  destruct l as [|x l]; [discriminate|]. intros H. injection H as <-.
  apply fold_min_spec.
Qed.

Lemma py_max_spec (l : list Q) (v : Q) :
  py_max l = Ok v -> In v l /\ forall y, In y l -> y <= v.
Proof.
  destruct l as [|x l]; [discriminate|]. intros H. injection H as <-.
  apply fold_max_spec.
Qed.

Lemma getitem_In {A} (l : list A) (i : Z) (a : A) : getitem l i = Ok a -> In a l.
Proof.
  unfold getitem. destruct (_ <? 0)%Z; [discriminate|].
  destruct (nth_error l _) eqn:N; [|discriminate].
  intros H. injection H as <-. eapply nth_error_In. exact N.
Qed.

Lemma sorted_In (l : list Q) (v : Q) : In v (sorted l) -> In v l.
Proof. apply Permutation_in, sorted_Permutation. Qed.

Lemma p95_In (l : list Q) (v : Q) : l <> [] -> p95 l = Ok v -> In v l.
Proof.
  intros Hne H. destruct l as [|x l]; [congruence|].
  unfold p95 in H. apply getitem_In in H. now apply sorted_In.
Qed.

Lemma median_between (l : list Q) (v lo hi : Q) :
  (forall y, In y l -> lo <= y) ->
  (forall y, In y l -> y <= hi) ->
  median l = Ok v -> lo <= v <= hi.
Proof.
  intros Hlo Hhi. unfold median.
  destruct (_ =? 0)%nat; [discriminate|].
  destruct (_ =? 1)%nat.
  - intros H. apply getitem_In, sorted_In in H. split; auto.
  - destruct (getitem (sorted l) _) as [a|] eqn:Ga; [|discriminate].
    destruct (getitem (sorted l) (Z.of_nat _)) as [b|] eqn:Gb; [|discriminate].
    cbn [bind_res]. intros H. injection H as <-.
    apply getitem_In, sorted_In in Ga. apply getitem_In, sorted_In in Gb.
    pose proof (Hlo a Ga). pose proof (Hlo b Gb).
    pose proof (Hhi a Ga). pose proof (Hhi b Gb).
    split.
    + apply Qle_shift_div_l; [reflexivity | lra].
    + apply Qle_shift_div_r; [reflexivity | lra].
Qed.

Lemma inject_succ (n : nat) :
  inject_Z (Z.of_nat (S n)) == inject_Z (Z.of_nat n) + 1.
Proof.
  rewrite Nat2Z.inj_succ. unfold Z.succ. now rewrite inject_Z_plus.
Qed.

Lemma fold_sum_bounds (l : list Q) (lo hi : Q) :
  (forall y, In y l -> lo <= y) ->
  (forall y, In y l -> y <= hi) ->
  forall acc,
    acc + inject_Z (Z.of_nat (List.length l)) * lo <= fold_left Qplus l acc
    /\ fold_left Qplus l acc <= acc + inject_Z (Z.of_nat (List.length l)) * hi.
Proof.
  intros Hlo Hhi.
  induction l as [|a l IH]; intros acc; cbn [fold_left List.length].
  - change (inject_Z (Z.of_nat 0)) with 0. split; lra.
  - destruct IH with (acc := acc + a) as [L U];
      [intros y Hy; apply Hlo; now right | intros y Hy; apply Hhi; now right |].
    pose proof (Hlo a (or_introl eq_refl)).
    pose proof (Hhi a (or_introl eq_refl)).
    rewrite inject_succ. split.
    + eapply Qle_trans; [|exact L]. lra.
    + eapply Qle_trans; [exact U|]. lra.
Qed.

Lemma mean_between (l : list Q) (v lo hi : Q) :
  (forall y, In y l -> lo <= y) ->
  (forall y, In y l -> y <= hi) ->
  mean l = Ok v -> lo <= v <= hi.
Proof.
  intros Hlo Hhi H. destruct l as [|x l]; [discriminate|].
  unfold mean in H. injection H as <-.
  destruct (fold_sum_bounds (x :: l) lo hi Hlo Hhi 0) as [L U].
  fold (fsum (x :: l)) in L, U.
  assert (Hn : 0 < inject_Z (Z.of_nat (List.length (x :: l)))).
  { change 0 with (inject_Z 0). rewrite <- Zlt_Qlt. simpl List.length. lia. }
  rewrite Qplus_0_l in L, U.
  split.
  - apply Qle_shift_div_l; [exact Hn|]. rewrite Qmult_comm. exact L.
  - apply Qle_shift_div_r; [exact Hn|]. rewrite Qmult_comm. exact U.
Qed.

(** What [summarise] puts into the dictionary. *)
Lemma summarise_inv (cfg : config) (v : locals) (r : metrics) :
  summarise cfg v = Ok r ->
  mean (latencies_ms v) = Ok (avg_ms r)
  /\ py_min (latencies_ms v) = Ok (min_ms r)
  /\ py_max (latencies_ms v) = Ok (max_ms r)
  /\ median (latencies_ms v) = Ok (med_ms r)
  /\ p95 (latencies_ms v) = Ok (p95_ms r).
Proof.
  unfold summarise.
  destruct (mean _) as [a|]; [|discriminate].
  destruct (py_min _) as [b|]; [|discriminate].
  destruct (py_max _) as [c|]; [|discriminate].
  destruct (median _) as [d|]; [|discriminate].
  destruct (p95 _) as [e|]; [|discriminate].
  cbn [bind_res]. destruct (truediv _ _); [|discriminate].
  cbn [bind_res]. intros H. injection H as <-. now repeat split.
Qed.

(** X1: on a non-empty list [p95] never raises; what it returns is one of
    the values of the list, and so lies between [min] and [max] of it. *)
Theorem p95_is_a_measurement (values : list Q) :
  values <> [] ->
  exists v,
    p95 values = Ok v
    /\ In v values
    /\ (forall mn mx, py_min values = Ok mn -> py_max values = Ok mx ->
                      mn <= v <= mx).
Proof.
  intros Hne. destruct (p95_nonempty values Hne) as (v & Hv & _).
  exists v. split; [exact Hv|].
  pose proof (p95_In values v Hne Hv) as Hin. split; [exact Hin|].
  intros mn mx Hmn Hmx.
  destruct (py_min_spec _ _ Hmn) as [_ Lo].
  destruct (py_max_spec _ _ Hmx) as [_ Hi]. split; auto.
Qed.

Lemma p95_is_a_measurement_witness :
  exists v, p95 Scenarios.ramp20 = Ok v /\ In v Scenarios.ramp20.
Proof.
  destruct (p95_is_a_measurement Scenarios.ramp20) as (v & Hv & Hin & _).
  - discriminate.
  - now exists v.
Defined.

Lemma p95_index_small (k : Z) :
  (1 <= k)%Z ->
  (int (Qmake 95 100 * inject_Z k) <= k - 1)%Z
  /\ ((k <= 20)%Z -> int (Qmake 95 100 * inject_Z k) = (k - 1)%Z).
Proof.
  intros Hk. unfold int, Qmult, inject_Z.
  cbn [Qnum Qden]. change (Z.pos (100 * 1)) with 100%Z.
  rewrite Z.quot_div_nonneg by lia. split.
  - assert (95 * k / 100 < k)%Z by (apply Z.div_lt_upper_bound; lia). lia.
  - intros Hu. symmetry. apply Z.div_unique with (r := (100 - 5 * k)%Z); lia.
Qed.

(** X2: with two or more values [p95] never takes the last position of the
    sorted list, and with 2 to 21 values it takes the last but one: it
    reports the second largest value (for two values, the smaller). *)
Theorem p95_below_the_top (values : list Q) :
  (2 <= List.length values)%nat ->
  exists v i,
    p95 values = Ok v
    /\ nth_error (sorted values) i = Some v
    /\ (i + 2 <= List.length values)%nat
    /\ ((List.length values <= 21)%nat -> (i + 2 = List.length values)%nat).
Proof.
  intros Hn.
  assert (Hne : values <> []) by (intros ->; simpl in Hn; lia).
  destruct (p95_nonempty values Hne) as (v & Hv & Hnth).
  set (k := (Z.of_nat (List.length values) - 1)%Z) in *.
  assert (Hk : (1 <= k)%Z) by (subst k; lia).
  destruct (p95_index k ltac:(lia)) as [E [L U]].
  destruct (p95_index_small k Hk) as [S1 S2].
  rewrite <- E in Hnth.
  exists v, (Z.to_nat (int (Qmake 95 100 * inject_Z k))).
  split; [exact Hv|]. split; [exact Hnth|]. split.
  - subst k. lia.
  - intros H21. rewrite S2 by (subst k; lia). subst k. lia.
Qed.

Lemma p95_below_the_top_witness :
  p95 [Qmake 900 1; Qmake 3 1] = Ok (Qmake 3 1)
  /\ exists v, p95 Scenarios.ramp20 = Ok v /\ nth_error Scenarios.ramp20 18 = Some v.
Proof.
  split.
  - destruct (p95_below_the_top [Qmake 900 1; Qmake 3 1]) as (v & i & Hv & Hn & _ & Hi).
    + simpl. lia.
    + specialize (Hi ltac:(simpl; lia)). simpl in Hi.
      assert (i = 0)%nat by lia. subst i. simpl in Hn. injection Hn as <-.
      exact Hv.
  - destruct (p95_below_the_top Scenarios.ramp20) as (v & i & Hv & Hn & _ & Hi).
    + simpl. lia.
    + specialize (Hi ltac:(simpl; lia)). simpl in Hi.
      assert (i = 18)%nat by lia. subst i. exists v. split; [exact Hv|].
      exact Hn.
Defined.

(** X3: in every model result the reported mean, median and 95th
    percentile lie between the reported minimum and maximum. *)
Theorem result_statistics_ordered
  (w : world) (cfg : config) (m : string) (st st' : state) (r : metrics) :
  run_one w cfg m st = (Ok r, st') ->
  (min_ms r <= avg_ms r <= max_ms r)
  /\ (min_ms r <= med_ms r <= max_ms r)
  /\ (min_ms r <= p95_ms r <= max_ms r).
Proof.
  unfold run_one, bind.
  destruct (measure w cfg m st) as [[v|e] st1]; [|discriminate].
  unfold lift. intros H. injection H as H _.
  destruct (summarise_inv cfg v r H) as (Ha & Hmn & Hmx & Hmed & Hp).
  destruct (py_min_spec _ _ Hmn) as [Imn Lo].
  destruct (py_max_spec _ _ Hmx) as [_ Hi].
  assert (Hne : latencies_ms v <> []) by (intros E; rewrite E in Imn; destruct Imn).
  split; [now apply (mean_between (latencies_ms v))|].
  split; [now apply (median_between (latencies_ms v))|].
  pose proof (p95_In _ _ Hne Hp). split; auto.
Qed.

Lemma result_statistics_ordered_witness :
  exists r st',
    run_one Scenarios.gold_world shipped "gold" initial = (Ok r, st')
    /\ min_ms r <= p95_ms r <= max_ms r.
Proof.
  destruct (run_one Scenarios.gold_world shipped "gold" initial) as [res st'] eqn:E.
  assert (Hok : exists r, res = Ok r).
  { vm_compute in E. injection E as <- _. eexists. reflexivity. }
  destruct Hok as [r ->].
  exists r, st'. split; [reflexivity|].
  now destruct (result_statistics_ordered _ _ _ _ _ _ E) as (_ & _ & H).
Defined.

End StatsBounds.

(** ** The shape of the report *)

Module ReportShape.
Import PyStr Py World Benchmark Run RunLemmas Report Isolation Shapes.

Lemma escape_head (t : string) (r : string) : escape t <> String "|" r.
Proof.
  destruct t as [|c t]; [discriminate|]. unfold escape. cbn [replace_char].
  destruct (Ascii.eqb c "|") eqn:E; [discriminate|].
  intros H. injection H as -> _. discriminate E.
Qed.

Lemma unescape_cons (c d : ascii) (s : string) :
  unescape (String c (String d s))
  = if Ascii.eqb c "\" && Ascii.eqb d "|" then String "|" (unescape s)
    else String c (unescape (String d s)).
Proof. reflexivity. Qed.

Lemma escape_cons (c : ascii) (t : string) :
  escape (String c t)
  = if Ascii.eqb c "|" then String "\" (String "|" (escape t))
    else String c (escape t).
Proof. unfold escape. cbn [replace_char]. now destruct (Ascii.eqb c "|"). Qed.

Lemma unescape_escape (t : string) : unescape (escape t) = t.
Proof.
  induction t as [|c t IH]; [reflexivity|].
  rewrite escape_cons. destruct (Ascii.eqb c "|") eqn:E.
  - apply Ascii.eqb_eq in E. subst c.
    rewrite unescape_cons. cbn [Ascii.eqb Bool.eqb andb]. now rewrite IH.
  - destruct (escape t) as [|d u] eqn:R.
    + cbn [unescape] in *. now rewrite <- IH.
    + rewrite unescape_cons, IH.
      destruct (Ascii.eqb c "\" && Ascii.eqb d "|") eqn:B; [|reflexivity].
      apply andb_true_iff in B. destruct B as [_ B].
      apply Ascii.eqb_eq in B. subst d.
      exfalso. exact (escape_head t u R).
Qed.

Lemma escape_pipes_escaped (t : string) : pipes_escaped (escape t).
Proof.
  unfold pipes_escaped.
  induction t as [|c t IH]; intros i H; [destruct i; discriminate|].
  rewrite escape_cons in *.
  destruct (Ascii.eqb c "|") eqn:E.
  - destruct i as [|[|i]]; cbn [String.get] in H.
    + discriminate.
    + exists 0. now split.
    + destruct (IH i H) as (j & -> & Hj). exists (S (S j)). now split.
  - destruct i as [|i]; cbn [String.get] in H.
    + injection H as ->. discriminate E.
    + destruct (IH i H) as (j & -> & Hj). exists (S j). now split.
Qed.

Lemma escape_without_pipe (t : string) :
  (forall i, String.get i t <> Some "|"%char) -> escape t = t.
Proof.
  induction t as [|c t IH]; intros H; [reflexivity|].
  rewrite escape_cons. destruct (Ascii.eqb c "|") eqn:E.
  - apply Ascii.eqb_eq in E. subst c. now elim (H 0).
  - f_equal. apply IH. intros i. exact (H (S i)).
Qed.

Section Outcomes.
Variable w : world.
Variable cfg : config.

(** Every result in the table was returned by [run_one] for a configured
    model. *)
Lemma successes_source (models : list (string * string)) :
  forall st model_id pretty r,
    In (model_id, pretty, r) (successes (fst (attempts w cfg models st))) ->
    In (model_id, pretty) models
    /\ exists st0 st1, run_one w cfg model_id st0 = (Ok r, st1).
Proof.
  induction models as [|[id p] rest IH]; intros st model_id pretty r H.
  - destruct H.
  - cbn [attempts] in H.
    destruct (run_one w cfg id (say st [Loading id])) as [[r0|e] st1] eqn:R;
      match type of H with
      | context [attempts w cfg rest ?s] =>
          destruct (attempts w cfg rest s) as [outs st3] eqn:A;
          pose proof (IH s model_id pretty r) as IH'; rewrite A in IH'
      end;
      cbn [fst successes flat_map app] in H, IH'.
    + destruct H as [H|H].
      * injection H as <- <- <-. split; [now left|]. eauto.
      * destruct (IH' H) as [Hin Hex]. split; [now right | exact Hex].
    + destruct (IH' H) as [Hin Hex]. split; [now right | exact Hex].
Qed.

End Outcomes.


Lemma successes_failures_length (outs : list (string * string * res metrics)) :
  List.length (successes outs) + List.length (failures outs) = List.length outs.
Proof.
  induction outs as [|[[id p] [r|e]] outs IH]; [reflexivity| |];
    unfold successes, failures in *; cbn [flat_map app List.length]; lia.
Qed.


Lemma flat_map_length_uniform {A B} (f : A -> list B) (k : nat) (l : list A) :
  (forall x, In x l -> List.length (f x) = k) ->
  List.length (flat_map f l) = List.length l * k.
Proof.
  induction l as [|x l IH]; intros H; [reflexivity|].
  cbn [flat_map List.length]. rewrite length_app, IH, (H x); [lia|now left|].
  intros y Hy. apply H. now right.
Qed.

Lemma preds_cover_samples
  (w : world) (cfg : config) (m : string) (st st' : state) (r : metrics)
  (text expected pred : string) (conf : Q) :
  run_one w cfg m st = (Ok r, st') ->
  In (text, expected, pred, conf) (preds r) ->
  In (text, expected) (SAMPLES cfg).
Proof.
  intros H Hin. destruct (run_one_result w cfg m st st' r H) as (P & _).
  rewrite <- (scored_samples w cfg m (SAMPLES cfg) (1 + calls st)), <- P.
  apply in_map_iff. now exists (text, expected, pred, conf).
Qed.

Lemma preds_length
  (w : world) (cfg : config) (m : string) (st st' : state) (r : metrics) :
  run_one w cfg m st = (Ok r, st') ->
  List.length (preds r) = List.length (SAMPLES cfg).
Proof.
  intros H. destruct (run_one_result w cfg m st st' r H) as (P & _).
  pose proof (scored_samples w cfg m (SAMPLES cfg) (1 + calls st)) as M.
  apply (f_equal (@List.length (string * string))) in M.
  rewrite length_map in M. now rewrite P.
Qed.

Section Printed.
Variable w : world.
Variable cfg : config.
Hypothesis load_raises_Exception :
  forall m e, load w m = Some e -> is_Exception e = true.
Hypothesis infer_raises_Exception :
  forall k m text e, infer w k m text = Raise e -> is_Exception e = true.

(** What [main] prints, in terms of the outcomes of its first loop. *)
Lemma main_prints (st : state) :
  let outs := fst (attempts w cfg (MODELS cfg) st) in
  exists st',
    main w cfg st = (Ok tt, st')
    /\ stdout st' = stdout st ++ progress outs ++ report cfg (successes outs)
    /\ map (fun o : string * string * res metrics => fst o) outs = MODELS cfg.
Proof.
  intros outs.
  destruct (evaluation_loop w cfg load_raises_Exception infer_raises_Exception
              (MODELS cfg) [] st) as (_ & Hp & Hm).
  eexists. split; [apply (main_report w cfg load_raises_Exception
                            infer_raises_Exception)|].
  split; [|exact Hm]. cbn [stdout say]. rewrite Hp. now rewrite <- app_assoc.
Qed.

End Printed.

(** X4: in every detail row [main] prints, the text cell is the text of
    a sample with each pipe written as backslash-pipe: no pipe of the cell
    stands without a backslash before it, and dropping those backslashes
    gives the sample text back. *)
Theorem detail_cells_escaped (w : world) (cfg : config) (st : state) :
  (forall m e, load w m = Some e -> is_Exception e = true) ->
  (forall k m text e, infer w k m text = Raise e -> is_Exception e = true) ->
  exists st' printed,
    main w cfg st = (Ok tt, st')
    /\ stdout st' = stdout st ++ printed
    /\ forall l,
         In l printed -> is_detail_row l = true ->
         exists pretty text expected pred conf,
           l = DetailRow pretty (escape text) expected pred conf
           /\ In (text, expected) (SAMPLES cfg)
           /\ pipes_escaped (escape text)
           /\ unescape (escape text) = text.
Proof.
  intros Hl Hi. destruct (main_prints w cfg Hl Hi st) as (st' & E & Hs & _).
  set (outs := fst (attempts w cfg (MODELS cfg) st)) in *.
  exists st', (progress outs ++ report cfg (successes outs)).
  split; [exact E|]. split; [exact Hs|].
  intros l Hin Hd.
  assert (Hf : In l (filter is_detail_row
                       (progress outs ++ report cfg (successes outs)))).
  { apply filter_In. now split. }
  destruct (printed_rows cfg outs) as (_ & F2 & _). rewrite F2 in Hf.
  apply in_flat_map in Hf. destruct Hf as ([[id pretty] r] & Hsucc & Hrow).
  unfold detail_rows in Hrow. apply in_map_iff in Hrow.
  destruct Hrow as ([[[text expected] pred] conf] & <- & Hp).
  destruct (successes_source w cfg (MODELS cfg) st id pretty r Hsucc)
    as (_ & st0 & st1 & R).
  exists pretty, text, expected, pred, conf.
  split; [reflexivity|].
  split; [exact (preds_cover_samples w cfg id st0 st1 r _ _ _ _ R Hp)|].
  split; [apply escape_pipes_escaped | apply unescape_escape].
Qed.

(** X5: the report has as many detail rows as results times samples, and
    every configured model is accounted for by either a summary row or a
    failure line. *)
Theorem report_row_counts (w : world) (cfg : config) (st : state) :
  (forall m e, load w m = Some e -> is_Exception e = true) ->
  (forall k m text e, infer w k m text = Raise e -> is_Exception e = true) ->
  exists st' printed,
    main w cfg st = (Ok tt, st')
    /\ stdout st' = stdout st ++ printed
    /\ List.length (filter is_detail_row printed)
       = List.length (filter is_summary_row printed) * List.length (SAMPLES cfg)
    /\ List.length (filter is_summary_row printed)
       + List.length (filter is_failure printed)
       = List.length (MODELS cfg).
Proof.
  intros Hl Hi. destruct (main_prints w cfg Hl Hi st) as (st' & E & Hs & Hm).
  set (outs := fst (attempts w cfg (MODELS cfg) st)) in *.
  exists st', (progress outs ++ report cfg (successes outs)).
  split; [exact E|]. split; [exact Hs|].
  destruct (printed_rows cfg outs) as (F1 & F2 & F3). rewrite F1, F2, F3.
  rewrite length_map. split.
  - apply flat_map_length_uniform. intros [[id pretty] r] Hin.
    destruct (successes_source w cfg (MODELS cfg) st id pretty r Hin)
      as (_ & st0 & st1 & R).
    unfold detail_rows. rewrite length_map.
    exact (preds_length w cfg id st0 st1 r R).
  - rewrite <- Hm, length_map. apply successes_failures_length.
Qed.


Ltac b_fails_errors :=
  [> intros m e; unfold Scenarios.b_fails_world; cbn [load];
     destruct (String.eqb m "B"); intros H;
     [injection H as <-; reflexivity | discriminate H]
   | intros k m text e H; discriminate H
   | .. ].

Lemma detail_cells_escaped_witness :
  exists st' printed,
    main Scenarios.b_fails_world Scenarios2.piped initial = (Ok tt, st')
    /\ In (DetailRow "Model A" "good \| bad \|\| ugly" "positive" "positive"
                     (Qmake 9 10)) printed
    /\ forall l,
         In l printed -> is_detail_row l = true ->
         exists pretty text expected pred conf,
           l = DetailRow pretty (escape text) expected pred conf
           /\ In (text, expected) (SAMPLES Scenarios2.piped).
Proof.
  destruct (detail_cells_escaped Scenarios.b_fails_world Scenarios2.piped initial)
    as (st' & printed & E & Hs & H); b_fails_errors.
  exists st', printed. split; [exact E|]. split.
  - vm_compute in E. injection E as <-. cbn [stdout initial app] in Hs. subst printed.
    do 11 right. left. reflexivity.
  - intros l Hin Hd.
    destruct (H l Hin Hd) as (pretty & text & expected & pred & conf & El & Hsm & _).
    exists pretty, text, expected, pred, conf. split; [exact El | exact Hsm].
Defined.

Lemma report_row_counts_witness :
  exists st' printed,
    main Scenarios.b_fails_world Scenarios2.piped initial = (Ok tt, st')
    /\ stdout st' = printed
    /\ List.length (filter is_detail_row printed) = 2
    /\ List.length (filter is_summary_row printed) = 1
    /\ List.length (filter is_failure printed) = 1.
Proof.
  destruct (report_row_counts Scenarios.b_fails_world Scenarios2.piped initial)
    as (st' & printed & E & Hs & Hd & Hm); b_fails_errors.
  exists st', printed. split; [exact E|]. split; [exact Hs|].
  assert (Hsum : List.length (filter is_summary_row printed) = 1).
  { vm_compute in E. injection E as <-. cbn [stdout initial app] in Hs. subst printed.
    reflexivity. }
  rewrite Hsum in Hd, Hm. cbn in Hd, Hm. repeat split; [exact Hd | exact Hsum | lia].
Defined.


(** X6: with no model configured [main] still returns normally: it
    builds no pipeline, reads no clock, and prints the headings of both
    tables with no row between them. *)
Theorem no_models_no_rows (w : world) (cfg : config) (st : state) :
  MODELS cfg = [] ->
  main w cfg st
  = (Ok tt,
     say st
       [ Plain "## Mini-Benchmark (CPU)";
         SamplesLine (List.length (SAMPLES cfg)) (RUNS_PER_SAMPLE cfg);
         Plain "| Model | Avg ms | Median | p95 | Min | Max | Accuracy |";
         Plain "|---|---:|---:|---:|---:|---:|---:|";
         Plain "<details><summary>Per-sample predictions</summary>";
         Plain "| Model | Text | Expected | Predicted | Confidence |";
         Plain "|---|---|---|---|---:|";
         Plain "</details>" ]).
Proof.
  intros H. unfold main. rewrite H. cbn [for_each].
  erewrite bind_Ok by reflexivity.
  rewrite !bind_print. cbn [for_each].
  erewrite bind_Ok by reflexivity.
  rewrite !bind_print.
  erewrite bind_Ok by reflexivity.
  change (print (Plain "</details>")) with
    (fun st0 => (Ok tt, say st0 [Plain "</details>"])).
  cbv beta. rewrite !say_say. reflexivity.
Qed.

Lemma no_models_no_rows_witness :
  exists st',
    main Scenarios.yes_world Scenarios2.no_models initial = (Ok tt, st')
    /\ log st' = [] /\ List.length (stdout st') = 8.
Proof.
  rewrite (no_models_no_rows Scenarios.yes_world Scenarios2.no_models initial eq_refl).
  eexists. split; [reflexivity|]. split; reflexivity.
Defined.

(** X12: [main] catches [Exception] only.  When building the pipeline of
    the first model raises something else (a keyboard interrupt), [main]
    raises it too: no further model is tried and no report is printed. *)
Theorem interrupt_not_caught
  (w : world) (cfg : config) (st : state)
  (model_id pretty : string) (rest : list (string * string)) (e : exn) :
  MODELS cfg = (model_id, pretty) :: rest ->
  load w model_id = Some e ->
  is_Exception e = false ->
  main w cfg st
  = (Raise e, advance (say st [Loading model_id]) 0 0 [EvPipeline model_id]).
Proof.
  intros Hm Hl He. unfold main, bind at 1. rewrite Hm. cbn [for_each].
  unfold bind at 1, evaluate. rewrite bind_print.
  unfold try_except, bind at 1.
  rewrite (run_one_load_fails w cfg model_id (say st [Loading model_id]) e Hl), He.
  reflexivity.
Qed.

Lemma interrupt_not_caught_witness :
  exists st',
    main Scenarios2.interrupted_world shipped initial = (Raise KeyboardInterrupt, st')
    /\ stdout st' = [Loading "distilbert-base-uncased-finetuned-sst-2-english"].
Proof.
  eexists. split.
  - apply (interrupt_not_caught Scenarios2.interrupted_world shipped initial
             "distilbert-base-uncased-finetuned-sst-2-english"
             "DistilBERT SST-2 (HF)"
             (tl (MODELS shipped)) KeyboardInterrupt); reflexivity.
  - reflexivity.
Defined.

End ReportShape.

(** ** Degenerate configurations and failing calls *)

Module RunEdges.
Import Py World Benchmark Run RunLemmas Report Isolation Shapes.

Lemma for_each_app {A S} (body : A -> S -> M S) (xs ys : list A) :
  forall acc st,
    for_each (xs ++ ys) body acc st
    = match for_each xs body acc st with
      | (Ok a, st') => for_each ys body a st'
      | (Raise e, st') => (Raise e, st')
      end.
Proof.
  induction xs as [|x xs IH]; intros acc st; [reflexivity|].
  cbn [for_each app]. unfold bind.
  destruct (body x acc st) as [[a|e] st1]; [apply IH | reflexivity].
Qed.

Section OneModel.
Variable w : world.
Variable cfg : config.
Variable m : string.

Lemma measure_loop (st : state) (outs : list raw_prediction) :
  load w m = None ->
  infer w (calls st) m "warmup" = Ok outs ->
  measure w cfg m st
  = for_each (SAMPLES cfg) (score_sample w cfg m) (mkLocals None [] 0 [])
             (advance st 0 1 [EvPipeline m; EvCall m "warmup"]).
Proof.
  intros Hl Hw. unfold measure, bind, pipeline, call. rewrite Hl.
  cbn [calls]. rewrite Hw. unfold advance. simpl. now rewrite <- app_assoc.
Qed.

(** X8: with an empty sample list [run_one] raises [StatisticsError] (the
    mean of no latency) as soon as the pipeline is built and warmed up; no
    clock is read. *)
Theorem empty_samples_raise (st : state) (outs : list raw_prediction) :
  SAMPLES cfg = [] ->
  load w m = None ->
  infer w (calls st) m "warmup" = Ok outs ->
  run_one w cfg m st
  = (Raise StatisticsError, advance st 0 1 [EvPipeline m; EvCall m "warmup"]).
Proof.
  intros Hs Hl Hw. unfold run_one, bind.
  rewrite (measure_loop st outs Hl Hw), Hs. reflexivity.
Qed.

(** X9: with [RUNS_PER_SAMPLE = 0] and at least one sample, [run_one]
    raises [UnboundLocalError]: no timed call has bound [out] when the
    first sample is scored. *)
Theorem zero_runs_raise (st : state) (outs : list raw_prediction) :
  RUNS_PER_SAMPLE cfg = 0 ->
  SAMPLES cfg <> [] ->
  load w m = None ->
  infer w (calls st) m "warmup" = Ok outs ->
  run_one w cfg m st
  = (Raise UnboundLocalError, advance st 0 1 [EvPipeline m; EvCall m "warmup"]).
Proof.
  intros Hr Hs Hl Hw. unfold run_one, bind.
  rewrite (measure_loop st outs Hl Hw).
  destruct (SAMPLES cfg) as [|[text expected] rest]; [congruence|].
  cbn [for_each]. unfold bind at 1, score_sample. rewrite Hr.
  reflexivity.
Qed.

Lemma timed_call_fail (text : string) (v : locals) (st : state) :
  answer w m (calls st) text = None ->
  timed_call w m text v st
  = (Raise (failure_of (infer w (calls st) m text)),
     advance st 1 1 [EvPerfCounter; EvCall m text]).
Proof.
  unfold answer, timed_call, bind, perf_counter, call, lift. cbn [calls].
  destruct (infer w (calls st) m text) as [[|o outs]|e]; intros H;
    try discriminate; unfold advance; simpl; now rewrite <- app_assoc.
Qed.

Lemma timed_runs_fail (text : string) (k j : nat) :
  forall (v : locals) (st : state),
    (forall j', j' < j -> answer w m (j' + calls st) text <> None) ->
    answer w m (j + calls st) text = None ->
    for_range (j + S k) (timed_call w m text) v st
    = (Raise (failure_of (infer w (j + calls st) m text)),
       advance st (2 * j + 1) (j + 1)
               (run_events m j text ++ [EvPerfCounter; EvCall m text])).
Proof.
  induction j as [|j IH]; intros v st Hok Hbad.
  - cbn [Nat.add for_range]. unfold bind.
    rewrite (timed_call_fail text v st Hbad). reflexivity.
  - destruct (answer w m (calls st) text) as [o|] eqn:A.
    2:{ exfalso. apply (Hok 0); [lia | exact A]. }
    cbn [Nat.add for_range]. unfold bind at 1.
    rewrite (timed_call_ok w m text v st o A), IH.
    + rewrite advance_advance. cbn [calls advance run_events].
      replace (j + (1 + calls st)) with (S j + calls st) by lia.
      f_equal. rewrite <- app_assoc. f_equal; lia.
    + intros j' Hj'. cbn [calls advance].
      replace (j' + (1 + calls st)) with (S j' + calls st) by lia.
      apply Hok. lia.
    + cbn [calls advance].
      replace (j + (1 + calls st)) with (S j + calls st) by lia. exact Hbad.
Qed.

Lemma score_sample_fail (text expected : string) (v : locals) (st : state) (j : nat) :
  j < RUNS_PER_SAMPLE cfg ->
  (forall j', j' < j -> answer w m (j' + calls st) text <> None) ->
  answer w m (j + calls st) text = None ->
  score_sample w cfg m (text, expected) v st
  = (Raise (failure_of (infer w (j + calls st) m text)),
     advance st (2 * j + 1) (j + 1)
             (run_events m j text ++ [EvPerfCounter; EvCall m text])).
Proof.
  intros Hj Hok Hbad. unfold score_sample, bind.
  remember (RUNS_PER_SAMPLE cfg - S j) as k eqn:Ek.
  assert (E : RUNS_PER_SAMPLE cfg = j + S k) by lia.
  rewrite E, (timed_runs_fail text k j v st Hok Hbad). reflexivity.
Qed.

(** X11: the first inference call that raises, or returns an empty list,
    ends the evaluation of the model: [run_one] raises that error (an
    [IndexError] for the empty list), the failing call is the last call
    made, and the clock was read once for it. *)
Theorem first_failing_call_ends_the_run
  (st : state) (outs : list raw_prediction)
  (pre post : list (string * string)) (text expected : string) (j : nat) :
  SAMPLES cfg = pre ++ (text, expected) :: post ->
  load w m = None ->
  infer w (calls st) m "warmup" = Ok outs ->
  all_answered w cfg m (1 + calls st) pre ->
  j < RUNS_PER_SAMPLE cfg ->
  (forall j', j' < j ->
     answer w m (j' + (RUNS_PER_SAMPLE cfg * List.length pre + (1 + calls st))) text
     <> None) ->
  answer w m (j + (RUNS_PER_SAMPLE cfg * List.length pre + (1 + calls st))) text
  = None ->
  exists st',
    run_one w cfg m st
    = (Raise (failure_of
                (infer w (j + (RUNS_PER_SAMPLE cfg * List.length pre
                               + (1 + calls st))) m text)),
       st')
    /\ calls st'
       = 1 + (j + (RUNS_PER_SAMPLE cfg * List.length pre + (1 + calls st)))
    /\ reads st' = 2 * (RUNS_PER_SAMPLE cfg * List.length pre + j) + 1 + reads st.
Proof.
  intros Hs Hl Hw Hpre Hj Hok Hbad.
  assert (Hr : 0 < RUNS_PER_SAMPLE cfg) by lia.
  unfold run_one, bind at 1.
  rewrite (measure_loop st outs Hl Hw), Hs, for_each_app.
  destruct (sample_loop_ok w cfg m pre Hr (mkLocals None [] 0 [])
              (advance st 0 1 [EvPipeline m; EvCall m "warmup"]) Hpre)
    as [o Ho].
  rewrite Ho. cbn [for_each]. unfold bind at 1.
  rewrite (score_sample_fail text expected _ _ j Hj).
  - eexists. split; [reflexivity|].
    rewrite advance_advance. cbn [calls reads advance]. split; lia.
  - intros j' Hj'. cbn [calls advance]. now apply Hok.
  - cbn [calls advance]. exact Hbad.
Qed.

End OneModel.

Lemma empty_samples_raise_witness :
  fst (run_one Scenarios.yes_world Scenarios2.no_samples "m" initial)
  = Raise StatisticsError.
Proof.
  rewrite (empty_samples_raise Scenarios.yes_world Scenarios2.no_samples "m" initial
             [mkRaw (Some "POSITIVE") (Qmake 9 10)] eq_refl eq_refl eq_refl).
  reflexivity.
Defined.

Lemma zero_runs_raise_witness :
  fst (run_one Scenarios.yes_world Scenarios2.no_runs "m" initial)
  = Raise UnboundLocalError.
Proof.
  rewrite (zero_runs_raise Scenarios.yes_world Scenarios2.no_runs "m" initial
             [mkRaw (Some "POSITIVE") (Qmake 9 10)] eq_refl);
    [reflexivity | discriminate | reflexivity | reflexivity].
Defined.

Lemma first_failing_call_ends_the_run_witness :
  exists st',
    run_one Scenarios2.empty_answer_world shipped "m" initial = (Raise IndexError, st')
    /\ calls st' = 5
    /\ reads st' = 7.
Proof.
  destruct (first_failing_call_ends_the_run
              Scenarios2.empty_answer_world shipped "m" initial
              [mkRaw (Some "POSITIVE") (Qmake 9 10)]
              [("I absolutely love this!", "positive")]
              (tl (tl (SAMPLES shipped)))
              "This is the best thing ever." "positive" 0)
    as (st' & E & C & R).
  - reflexivity.
  - reflexivity.
  - reflexivity.
  - cbn [all_answered]. split; [|exact I].
    intros j Hj. cbn in Hj.
    do 3 (destruct j as [|j]; [discriminate|]). lia.
  - cbn. lia.
  - intros j' Hj'. lia.
  - reflexivity.
  - exists st'. split; [exact E|]. split; [exact C | exact R].
Defined.

(** X10: with no sample, or with no run per sample, no model can get a
    result: [main] still returns normally, and its report has no summary
    row and no detail row but one failure line per configured model. *)
Theorem degenerate_configuration_reports_no_rows
  (w : world) (cfg : config) (st : state) :
  (forall m e, load w m = Some e -> is_Exception e = true) ->
  (forall k m text e, infer w k m text = Raise e -> is_Exception e = true) ->
  SAMPLES cfg = [] \/ RUNS_PER_SAMPLE cfg = 0 ->
  exists st' printed,
    main w cfg st = (Ok tt, st')
    /\ stdout st' = stdout st ++ printed
    /\ filter is_summary_row printed = []
    /\ filter is_detail_row printed = []
    /\ List.length (filter is_failure printed) = List.length (MODELS cfg).
Proof.
  intros Hl Hi Hdeg.
  destruct (ReportShape.main_prints w cfg Hl Hi st) as (st' & E & Hs & Hm).
  set (outs := fst (attempts w cfg (MODELS cfg) st)) in *.
  exists st', (progress outs ++ report cfg (successes outs)).
  split; [exact E|]. split; [exact Hs|].
  assert (Hnone : successes outs = []).
  { destruct (successes outs) as [|[[id pretty] r] rest] eqn:S; [reflexivity|].
    exfalso.
    destruct (ReportShape.successes_source w cfg (MODELS cfg) st id pretty r)
      as (_ & st0 & st1 & R).
    { fold outs. rewrite S. now left. }
    destruct (run_one_inv w cfg id st0 st1 r R) as (Hr & Hne & _).
    destruct Hdeg as [H|H]; [contradiction | lia]. }
  destruct (printed_rows cfg outs) as (F1 & F2 & F3).
  rewrite F1, F2, F3, Hnone. split; [reflexivity|]. split; [reflexivity|].
  pose proof (ReportShape.successes_failures_length outs) as L.
  rewrite Hnone in L. cbn [List.length Nat.add] in L.
  rewrite L, <- Hm. now rewrite length_map.
Qed.

Lemma degenerate_configuration_reports_no_rows_witness :
  exists st' printed,
    main Scenarios.yes_world Scenarios2.no_samples initial = (Ok tt, st')
    /\ stdout st' = printed
    /\ filter is_summary_row printed = []
    /\ List.length (filter is_failure printed) = 3.
Proof.
  destruct (degenerate_configuration_reports_no_rows
              Scenarios.yes_world Scenarios2.no_samples initial)
    as (st' & printed & E & Hs & F1 & _ & F3).
  - intros m e H. discriminate H.
  - intros k m text e H. discriminate H.
  - now left.
  - exists st', printed. split; [exact E|]. split; [exact Hs|].
    split; [exact F1 | exact F3].
Defined.

End RunEdges.

(** * Properties of the comparison UI *)

(** ** Input texts, labels and the pipeline cache *)

Module UIFacts.
Import PyStr PyStrFacts Py World BenchmarkUI.
Local Open Scope string_scope.

Lemma truthy_nonempty (s : string) : truthy s = true <-> s <> "".
Proof. destruct s; cbn; split; congruence. Qed.

(** A list of texts as [_extract_texts] returns them. *)
Lemma extract_clean (df_like : option (list row)) (t : string) :
  In t (_extract_texts df_like) -> t <> "" /\ strip t = t.
Proof.
  unfold _extract_texts. intros H. apply in_map_iff in H.
  destruct H as (v & <- & H). apply filter_In in H. destruct H as [_ H].
  split; [now apply truthy_nonempty | apply strip_idem].
Qed.

Lemma extract_of_clean (wrap : string -> row) (l : list string) :
  (forall t, row_values (wrap t) = [t]) ->
  (forall t, In t l -> t <> "" /\ strip t = t) ->
  _extract_texts (Some (map wrap l)) = l.
Proof.
  intros Hw. unfold _extract_texts.
  induction l as [|t l IH]; intros H; [reflexivity|].
  cbn [map flat_map]. rewrite Hw. cbn [app filter].
  destruct (H t (or_introl eq_refl)) as [Hne Hs]. rewrite Hs.
  apply truthy_nonempty in Hne. rewrite Hne. cbn [map]. rewrite Hs.
  f_equal. apply IH. intros u Hu. apply H. now right.
Qed.

(** X13: the texts [_extract_texts] returns are never empty and carry no
    white space at either end; putting them back into the table, one per
    row, and extracting again returns the same list. *)
Theorem extract_texts_clean (df_like : option (list row)) :
  (forall t, In t (_extract_texts df_like) -> t <> "" /\ strip t = t)
  /\ _extract_texts
       (Some (map (fun t => RowSeq [CellStr t]) (_extract_texts df_like)))
     = _extract_texts df_like
  /\ _extract_texts (Some (map RowStr (_extract_texts df_like)))
     = _extract_texts df_like.
Proof.
  split; [apply extract_clean|]. split.
  - apply extract_of_clean; [reflexivity | apply extract_clean].
  - apply extract_of_clean; [reflexivity | apply extract_clean].
Qed.

(** X14: the UI's normaliser is the benchmark's with everything that is
    not "positive" collapsed to "negative": unknown labels, the empty
    label, "neutral" and a missing label all show as "negative". *)
Theorem _normalize_collapses (raw : option string) :
  _normalize raw
  = if String.eqb (Benchmark.normalize_label raw) "positive" then "positive"
    else "negative".
Proof.
  destruct raw as [s|]; [|reflexivity].
  unfold _normalize, Benchmark.normalize_label.
  destruct (str_in (lower (strip s)) ["positive"; "pos"; "label_1"; "1"]) eqn:H1;
    [reflexivity|].
  assert (E : String.eqb (lower (strip s)) "positive" = false).
  { unfold str_in in H1. cbn [existsb] in H1.
    now apply orb_false_iff in H1. }
  destruct (str_in _ ["negative"; "neg"; "label_0"; "0"]); [reflexivity|].
  destruct (str_in _ ["neutral"]); [reflexivity|]. now rewrite E.
Qed.

Lemma cached_store_other (m m' clf : string) (cache : list (string * classifier)) :
  m' <> m ->
  find (fun kv : string * classifier => String.eqb (fst kv) m')
       ((m, clf) :: filter (fun kv => negb (String.eqb (fst kv) m)) cache)
  = find (fun kv : string * classifier => String.eqb (fst kv) m') cache.
Proof.
  intros Hne. cbn [find fst].
  assert (E : String.eqb m m' = false) by (apply String.eqb_neq; congruence).
  rewrite E. induction cache as [|[k c] cache IH]; [reflexivity|].
  cbn [filter find fst]. destruct (String.eqb k m) eqn:Ek; cbn [negb find fst].
  - apply String.eqb_eq in Ek. subst k. now rewrite E.
  - destruct (String.eqb k m'); [reflexivity | exact IH].
Qed.

Section Cache.
Variable w : world.
Variable m : string.

Lemma _get_pipeline_hit (st : state) (clf : classifier) :
  cached m st = Some clf -> _get_pipeline w m st = (Ok clf, st).
Proof. intros H. unfold _get_pipeline. now rewrite H. Qed.

(** What a cache miss does. *)
Lemma _get_pipeline_miss (st : state) :
  cached m st = None ->
  match load w m with
  | Some e =>
      _get_pipeline w m st
      = (Raise e,
         mkState (reads st) (calls st) (log st ++ [EvPipeline m]) (stdout st)
                 (_PIPELINES st))
  | None =>
      let st' :=
        mkState (reads st) (S (calls st))
                (log st ++ [EvPipeline m; EvCall m "warmup"]) (stdout st)
                ((m, m) :: filter (fun kv => negb (String.eqb (fst kv) m))
                                  (_PIPELINES st)) in
      match infer w (calls st) m "warmup" with
      | Raise e =>
          _get_pipeline w m st
          = (if is_Exception e then Ok m else Raise e, st')
      | Ok _ => _get_pipeline w m st = (Ok m, st')
      end
  end.
Proof.
  intros Hc. unfold _get_pipeline. rewrite Hc.
  unfold bind, pipeline, store, try_except, call, ret.
  destruct (load w m) as [e|]; [reflexivity|].
  cbn [calls reads log stdout _PIPELINES].
  destruct (infer w (calls st) m "warmup") as [outs|e].
  - now rewrite <- app_assoc.
  - destruct (is_Exception e); now rewrite <- app_assoc.
Qed.

Lemma _get_pipeline_returns (st st' : state) (clf : classifier) :
  _get_pipeline w m st = (Ok clf, st') ->
  cached m st' = Some clf
  /\ (forall m', m' <> m -> cached m' st' = cached m' st)
  /\ (cached m st <> None \/ load w m = None).
Proof.
  intros H. destruct (cached m st) as [c|] eqn:C.
  - rewrite (_get_pipeline_hit st c C) in H. injection H as <- <-.
    split; [exact C|]. split; [reflexivity | left; discriminate].
  - pose proof (_get_pipeline_miss st C) as Hm.
    destruct (load w m) as [e|] eqn:L; [congruence|]. cbv zeta in Hm.
    assert (Hst : clf = m
                  /\ _PIPELINES st'
                     = (m, m) :: filter (fun kv => negb (String.eqb (fst kv) m))
                                        (_PIPELINES st)).
    { rewrite H in Hm.
      destruct (infer w (calls st) m "warmup") as [outs|e].
      - injection Hm as -> ->. now split.
      - destruct (is_Exception e); [|discriminate].
        injection Hm as -> ->. now split. }
    destruct Hst as [-> Hp]. unfold cached. rewrite Hp.
    split; [cbn [find fst snd]; now rewrite String.eqb_refl|].
    split; [|now right].
    intros m' Hne. now rewrite cached_store_other.
Qed.

(** X15: a pipeline is built once.  A model that is in the cache is
    returned without touching the world; whenever [_get_pipeline] returns,
    the model is in the cache, so asking again changes nothing, and the
    entries of the other models are as before.  A model that cannot be
    loaded is not put into the cache. *)
Theorem pipeline_built_once (st : state) :
  (forall clf, cached m st = Some clf -> _get_pipeline w m st = (Ok clf, st))
  /\ (forall clf st',
         _get_pipeline w m st = (Ok clf, st') ->
         cached m st' = Some clf
         /\ _get_pipeline w m st' = (Ok clf, st')
         /\ forall m', m' <> m -> cached m' st' = cached m' st)
  /\ (forall e,
         cached m st = None -> load w m = Some e ->
         exists st', _get_pipeline w m st = (Raise e, st')
                     /\ cached m st' = None).
Proof.
  split; [apply _get_pipeline_hit|]. split.
  - intros clf st' H. destruct (_get_pipeline_returns st st' clf H) as (Hc & Hf & _).
    split; [exact Hc|]. split; [now apply _get_pipeline_hit | exact Hf].
  - intros e Hc Hl. pose proof (_get_pipeline_miss st Hc) as Hm.
    rewrite Hl in Hm. eexists. split; [exact Hm|]. exact Hc.
Qed.

End Cache.

Lemma extract_texts_clean_witness :
  _extract_texts UIShapes.messy_payload = ["so good"; "42"; "meh"]
  /\ _extract_texts (Some (map RowStr (_extract_texts UIShapes.messy_payload)))
     = ["so good"; "42"; "meh"].
Proof.
  destruct (extract_texts_clean UIShapes.messy_payload) as (_ & _ & H).
  split; [reflexivity|]. rewrite H. reflexivity.
Defined.

Lemma pipeline_built_once_witness :
  (exists st',
      _get_pipeline Scenarios.cold_world "m" initial = (Ok "m", st')
      /\ _get_pipeline Scenarios.cold_world "m" st' = (Ok "m", st'))
  /\ (exists st',
         _get_pipeline Scenarios.b_fails_world "B" initial
         = (Raise (LibraryError "no such model"), st')
         /\ cached "B" st' = None).
Proof.
  split.
  - destruct (pipeline_built_once Scenarios.cold_world "m" initial) as (_ & H & _).
    destruct (_get_pipeline Scenarios.cold_world "m" initial) as [r st'] eqn:E.
    assert (Hr : r = Ok "m") by (vm_compute in E; now injection E as <- _).
    subst r. exists st'. split; [reflexivity|].
    now destruct (H "m" st' eq_refl) as (_ & H2 & _).
  - destruct (pipeline_built_once Scenarios.b_fails_world "B" initial) as (_ & _ & H).
    apply H; reflexivity.
Defined.

End UIFacts.

(** ** The table [run_table] returns *)

Module UITable.
Import PyStr PyStrFacts Py World BenchmarkUI UIShapes UIFacts Shapes.
Local Open Scope string_scope.
Local Open Scope list_scope.

Lemma _normalize_is_two_valued (l : option string) : two_valued (_normalize l).
Proof. apply NormalizeFacts._normalize_two_valued. Qed.

Lemma count_pipelines_call (evs : list event) (clf text : string) :
  count_pipelines (evs ++ [EvCall clf text]) = count_pipelines evs.
Proof.
  unfold count_pipelines. rewrite filter_app. cbn [filter]. now rewrite app_nil_r.
Qed.

Lemma neutral_ret {A} (a : A) : cache_neutral (ret a).
Proof. intros st r st' H. injection H as _ <-. now split. Qed.

Lemma neutral_lift {A} (r : res A) : cache_neutral (lift r).
Proof. intros st r' st' H. injection H as _ <-. now split. Qed.

Lemma neutral_bind {A B} (c : M A) (k : A -> M B) :
  cache_neutral c -> (forall a, cache_neutral (k a)) -> cache_neutral (bind c k).
Proof.
  intros Hc Hk st r st' H. unfold bind in H.
  destruct (c st) as [[a|e] st1] eqn:C; destruct (Hc _ _ _ C) as [P1 L1].
  - destruct (Hk a _ _ _ H) as [P2 L2]. split; congruence.
  - injection H as _ <-. now split.
Qed.

Lemma neutral_for_each {A S} (xs : list A) (body : A -> S -> M S) :
  (forall x acc, cache_neutral (body x acc)) ->
  forall acc, cache_neutral (for_each xs body acc).
Proof.
  intros Hb. induction xs as [|x xs IH]; intros acc; cbn [for_each].
  - apply neutral_ret.
  - apply neutral_bind; [apply Hb | exact IH].
Qed.

Section Table.
Variable w : world.
Variable cfg : ui_config.

Lemma neutral_call (clf text : string) : cache_neutral (call w clf text).
Proof.
  intros st r st' H. unfold call in H. injection H as _ <-.
  cbn [_PIPELINES log]. split; [reflexivity | apply count_pipelines_call].
Qed.

Lemma neutral_label_row (clfs : list (classifier * string)) (t : string) :
  cache_neutral (label_row w clfs t).
Proof.
  unfold label_row. apply neutral_for_each. intros [clf p] row.
  apply neutral_bind; [apply neutral_call|]. intros outs.
  apply neutral_bind; [apply neutral_lift|]. intros o. apply neutral_ret.
Qed.

Lemma neutral_rows (clfs : list (classifier * string)) (texts : list string)
      (acc : list (list string)) :
  cache_neutral
    (for_each texts
       (fun (t : string) (rows : list (list string)) =>
          bind (label_row w clfs t) (fun r => ret (rows ++ [r]))) acc).
Proof.
  apply neutral_for_each. intros t rows.
  apply neutral_bind; [apply neutral_label_row|]. intros r. apply neutral_ret.
Qed.

(** The row of one text, whenever the inner loop completes. *)
Lemma label_loop_shape (t : string) (clfs : list (classifier * string)) :
  forall (row row' : list string) (st st' : state),
    for_each clfs
      (fun (c : classifier * string) (row : list string) =>
         let '(clf, _) := c in
         bind (call w clf t) (fun outs =>
         bind (lift (getitem outs 0)) (fun o =>
         ret (row ++ [_normalize (label o)])))) row st
    = (Ok row', st') ->
    exists labels,
      row' = row ++ labels
      /\ List.length labels = List.length clfs
      /\ Forall two_valued labels.
Proof.
  induction clfs as [|[clf p] clfs IH]; intros row row' st st' H.
  - injection H as <- _. exists []. now rewrite app_nil_r.
  - cbn [for_each] in H. unfold bind at 1 in H.
    match type of H with
    | (let (_, _) := ?c in _) = _ => destruct c as [[row1|e] st1] eqn:B
    end; [|discriminate].
    unfold bind at 1 in B. destruct (call w clf t st) as [[outs|e] st0]; [|discriminate].
    unfold bind, lift in B. destruct (getitem outs 0) as [o|e]; [|discriminate].
    injection B as <- _.
    destruct (IH _ _ _ _ H) as (labels & -> & Hlen & Hall).
    exists (_normalize (label o) :: labels). split; [now rewrite <- app_assoc|].
    split; [cbn; now rewrite Hlen|].
    constructor; [apply _normalize_is_two_valued | exact Hall].
Qed.

Lemma rows_shape (clfs : list (classifier * string)) (texts : list string) :
  forall (acc rows : list (list string)) (st st' : state),
    for_each texts
      (fun (t : string) (rows : list (list string)) =>
         bind (label_row w clfs t) (fun r => ret (rows ++ [r]))) acc st
    = (Ok rows, st') ->
    exists new,
      rows = acc ++ new /\ Forall2 (table_row (List.length clfs)) texts new.
Proof.
  induction texts as [|t texts IH]; intros acc rows st st' H.
  - injection H as <- _. exists []. split; [now rewrite app_nil_r | constructor].
  - cbn [for_each] in H. unfold bind at 1 in H.
    match type of H with
    | (let (_, _) := ?c in _) = _ => destruct c as [[rows1|e] st1] eqn:B
    end; [|discriminate].
    unfold bind in B.
    destruct (label_row w clfs t st) as [[r|e] st0] eqn:L; [|discriminate].
    injection B as <- _.
    destruct (label_loop_shape t clfs _ _ _ _ L) as (labels & -> & Hlen & Hall).
    destruct (IH _ _ _ _ H) as (new & -> & Hnew).
    exists ((t :: labels) :: new). split; [now rewrite <- app_assoc|].
    constructor; [|exact Hnew]. now exists labels.
Qed.

(** What loading all models leaves behind, whenever it completes. *)
Lemma load_all_inv (models : list (string * string)) :
  forall (acc clfs : list (classifier * string)) (st st' : state),
    for_each models
      (fun (model : string * string) (clfs : list (classifier * string)) =>
         let '(mid, pretty) := model in
         bind (_get_pipeline w mid) (fun clf => ret (clfs ++ [(clf, pretty)])))
      acc st
    = (Ok clfs, st') ->
    List.length clfs = List.length acc + List.length models
    /\ (forall mid, cached mid st <> None -> cached mid st' <> None)
    /\ (forall mid p, In (mid, p) models -> cached mid st' <> None)
    /\ (forall mid p, In (mid, p) models ->
                      cached mid st <> None \/ load w mid = None).
Proof.
  induction models as [|[m0 p0] models IH]; intros acc clfs st st' H.
  - injection H as <- <-. cbn. split; [lia|]. split; [auto|].
    split; intros mid p [].
  - cbn [for_each] in H. unfold bind at 1 in H.
    match type of H with
    | (let (_, _) := ?c in _) = _ => destruct c as [[acc1|e] st1] eqn:B
    end; [|discriminate].
    unfold bind in B.
    destruct (_get_pipeline w m0 st) as [[clf|e] st0] eqn:G; [|discriminate].
    injection B as <- <-.
    destruct (_get_pipeline_returns w m0 st st0 clf G) as (Hc & Hf & Hs).
    destruct (IH _ _ _ _ H) as (Hlen & Hmono & Hall & Hsrc).
    assert (Hmono0 : forall mid, cached mid st <> None -> cached mid st0 <> None).
    { intros mid Hm. destruct (String.eqb mid m0) eqn:E.
      - apply String.eqb_eq in E. subst mid. congruence.
      - apply String.eqb_neq in E. now rewrite Hf. }
    split; [rewrite Hlen, length_app; cbn; lia|].
    split; [auto|]. split.
    + intros mid p [E|Hin].
      * injection E as <- <-. apply Hmono. congruence.
      * now apply (Hall mid p).
    + intros mid p [E|Hin].
      * injection E as <- <-. exact Hs.
      * destruct (Hsrc mid p Hin) as [Hm|Hl]; [|now right].
        destruct (String.eqb mid m0) eqn:E.
        -- apply String.eqb_eq in E. subst mid. exact Hs.
        -- apply String.eqb_neq in E. left. now rewrite <- (Hf mid E).
Qed.

(** With every model in the cache, loading all models changes nothing. *)
Lemma load_all_cached (models : list (string * string)) :
  forall (acc : list (classifier * string)) (st : state),
    (forall mid p, In (mid, p) models -> cached mid st <> None) ->
    exists clfs,
      for_each models
        (fun (model : string * string) (clfs : list (classifier * string)) =>
           let '(mid, pretty) := model in
           bind (_get_pipeline w mid) (fun clf => ret (clfs ++ [(clf, pretty)])))
        acc st
      = (Ok clfs, st).
Proof.
  induction models as [|[m0 p0] models IH]; intros acc st H.
  - now exists acc.
  - destruct (cached m0 st) as [clf|] eqn:C.
    2:{ exfalso. apply (H m0 p0); [now left | exact C]. }
    destruct (IH (acc ++ [(clf, p0)]) st) as [clfs E].
    { intros mid p Hin. apply (H mid p). now right. }
    exists clfs. cbn [for_each]. unfold bind at 1, bind at 1.
    rewrite (_get_pipeline_hit w m0 st clf C). exact E.
Qed.

Hypothesis Hw : answering w.

Lemma _get_pipeline_answering (m : string) (st : state) :
  exists clf st', _get_pipeline w m st = (Ok clf, st').
Proof.
  destruct Hw as [Hl Hi]. destruct (cached m st) as [clf|] eqn:C.
  - exists clf, st. now apply _get_pipeline_hit.
  - pose proof (_get_pipeline_miss w m st C) as Hm. rewrite (Hl m) in Hm.
    cbv zeta in Hm. destruct (Hi (calls st) m "warmup") as (o & outs & E).
    rewrite E in Hm. eexists. eexists. exact Hm.
Qed.

Lemma load_all_answering (models : list (string * string)) :
  forall (acc : list (classifier * string)) (st : state),
    exists clfs st',
      for_each models
        (fun (model : string * string) (clfs : list (classifier * string)) =>
           let '(mid, pretty) := model in
           bind (_get_pipeline w mid) (fun clf => ret (clfs ++ [(clf, pretty)])))
        acc st
      = (Ok clfs, st').
Proof.
  induction models as [|[m0 p0] models IH]; intros acc st.
  - now exists acc, st.
  - destruct (_get_pipeline_answering m0 st) as (clf & st1 & G).
    destruct (IH (acc ++ [(clf, p0)]) st1) as (clfs & st' & E).
    exists clfs, st'. cbn [for_each]. unfold bind at 1, bind at 1.
    rewrite G. exact E.
Qed.

Lemma label_row_answering (t : string) (clfs : list (classifier * string)) :
  forall (row : list string) (st : state),
    exists row' st',
      for_each clfs
        (fun (c : classifier * string) (row : list string) =>
           let '(clf, _) := c in
           bind (call w clf t) (fun outs =>
           bind (lift (getitem outs 0)) (fun o =>
           ret (row ++ [_normalize (label o)])))) row st
      = (Ok row', st').
Proof.
  destruct Hw as [_ Hi].
  induction clfs as [|[clf p] clfs IH]; intros row st.
  - now exists row, st.
  - destruct (Hi (calls st) clf t) as (o & outs & E).
    match goal with
    | |- exists _ _, for_each _ ?body _ _ = _ =>
        destruct (IH (row ++ [_normalize (label o)])
                     (mkState (reads st) (S (calls st))
                              (log st ++ [EvCall clf t]) (stdout st)
                              (_PIPELINES st)))
          as (row' & st' & R)
    end.
    exists row', st'. cbn [for_each]. unfold bind at 1, bind at 1, call.
    rewrite E. exact R.
Qed.

Lemma rows_answering (clfs : list (classifier * string)) (texts : list string) :
  forall (acc : list (list string)) (st : state),
    exists rows st',
      for_each texts
        (fun (t : string) (rows : list (list string)) =>
           bind (label_row w clfs t) (fun r => ret (rows ++ [r]))) acc st
      = (Ok rows, st').
Proof.
  induction texts as [|t texts IH]; intros acc st.
  - now exists acc, st.
  - destruct (label_row_answering t clfs [t] st) as (r & st1 & L).
    destruct (IH (acc ++ [r]) st1) as (rows & st' & E).
    exists rows, st'. cbn [for_each]. unfold bind at 1, bind at 1.
    unfold label_row. rewrite L. exact E.
Qed.

End Table.

Lemma run_table_unfold
  (w : world) (cfg : ui_config) (df_input : option (list row)) (st : state) :
  run_table w cfg df_input st
  = bind (load_all w (MODELS cfg))
         (fun clfs =>
            for_each (shown_texts cfg df_input)
              (fun (t : string) (rows : list (list string)) =>
                 bind (label_row w clfs t) (fun r => ret (rows ++ [r]))) [])
         st.
Proof.
  unfold run_table, shown_texts. now destruct (_extract_texts df_input).
Qed.

(** X16: every table [run_table] returns has one row per text (the
    cleaned input texts, or the default samples when there is none), in
    their order; a row is the text followed by one label per configured
    model, each "positive" or "negative".  In a world where every model
    loads and every call returns, [run_table] does return a table. *)
Theorem run_table_shape
  (w : world) (cfg : ui_config) (df_input : option (list row)) (st : state) :
  (forall rows st',
      run_table w cfg df_input st = (Ok rows, st') ->
      Forall2 (table_row (List.length (MODELS cfg)))
              (shown_texts cfg df_input) rows)
  /\ (answering w ->
      exists rows st', run_table w cfg df_input st = (Ok rows, st')).
Proof.
  split.
  - intros rows st' H. rewrite run_table_unfold in H. unfold bind at 1 in H.
    destruct (load_all w (MODELS cfg) st) as [[clfs|e] st1] eqn:L; [|discriminate].
    destruct (load_all_inv w (MODELS cfg) [] clfs st st1 L) as (Hlen & _).
    destruct (rows_shape w clfs _ _ _ _ _ H) as (new & -> & Hnew).
    cbn [app]. cbn [List.length Nat.add] in Hlen. rewrite Hlen in Hnew.
    exact Hnew.
  - intros Hw. rewrite run_table_unfold. unfold bind at 1.
    destruct (load_all_answering w Hw (MODELS cfg) [] st) as (clfs & st1 & L).
    unfold load_all. rewrite L. apply (rows_answering w Hw).
Qed.

Lemma yes_world_answering : answering Scenarios.yes_world.
Proof. split; [reflexivity|]. intros k m text. eexists. eexists. reflexivity. Qed.

Lemma run_table_shape_witness :
  (exists rows st',
      run_table Scenarios.yes_world shipped (Some [RowSeq [CellStr "   "]]) initial
      = (Ok rows, st')
      /\ List.length rows = 8)
  /\ (exists st',
         run_table Scenarios.yes_world shipped messy_payload initial
         = (Ok [ ["so good"; "positive"; "positive"; "positive"];
                 ["42"; "positive"; "positive"; "positive"];
                 ["meh"; "positive"; "positive"; "positive"] ], st')).
Proof.
  split.
  - destruct (run_table_shape Scenarios.yes_world shipped
                (Some [RowSeq [CellStr "   "]]) initial) as (Hall & Hex).
    destruct (Hex yes_world_answering) as (rows & st' & E).
    exists rows, st'. split; [exact E|].
    pose proof (Hall rows st' E) as F. apply Forall2_length in F.
    rewrite <- F. reflexivity.
  - destruct (run_table_shape Scenarios.yes_world shipped messy_payload initial)
      as (_ & Hex).
    destruct (Hex yes_world_answering) as (rows & st' & E).
    exists st'. rewrite E. f_equal. vm_compute in E. now injection E as <- _.
Defined.

(** X17: once [run_table] has returned a table, every configured model
    is in the cache, and no later call of [run_table] builds a pipeline,
    whatever its input and however it ends. *)
Theorem run_table_reuses_pipelines
  (w : world) (cfg : ui_config) (df_input : option (list row))
  (st st' : state) (rows : list (list string)) :
  run_table w cfg df_input st = (Ok rows, st') ->
  (forall mid p, In (mid, p) (MODELS cfg) -> cached mid st' <> None)
  /\ (forall df2 r2 st2,
         run_table w cfg df2 st' = (r2, st2) ->
         count_pipelines (log st2) = count_pipelines (log st')).
Proof.
  intros H. rewrite run_table_unfold in H. unfold bind at 1 in H.
  destruct (load_all w (MODELS cfg) st) as [[clfs|e] st1] eqn:L; [|discriminate].
  destruct (load_all_inv w (MODELS cfg) [] clfs st st1 L) as (_ & _ & Hall & _).
  destruct (neutral_rows w clfs _ _ _ _ _ H) as [Hp _].
  assert (Hc : forall mid p, In (mid, p) (MODELS cfg) -> cached mid st' <> None).
  { intros mid p Hin. unfold cached. rewrite Hp. now apply (Hall mid p). }
  split; [exact Hc|].
  intros df2 r2 st2 H2. rewrite run_table_unfold in H2. unfold bind at 1 in H2.
  destruct (load_all_cached w (MODELS cfg) [] st' Hc) as [clfs2 L2].
  unfold load_all in H2. rewrite L2 in H2.
  now destruct (neutral_rows w clfs2 _ _ _ _ _ H2) as [_ Hl].
Qed.

Lemma run_table_reuses_pipelines_witness :
  exists rows st' rows2 st2,
    run_table Scenarios.yes_world shipped messy_payload initial = (Ok rows, st')
    /\ run_table Scenarios.yes_world shipped None st' = (Ok rows2, st2)
    /\ count_pipelines (log st') = 3
    /\ count_pipelines (log st2) = 3.
Proof.
  destruct (run_table Scenarios.yes_world shipped messy_payload initial)
    as [r st'] eqn:E.
  assert (Hr : exists rows, r = Ok rows
                            /\ count_pipelines (log st') = 3).
  { vm_compute in E. injection E as <- <-. eexists. split; reflexivity. }
  destruct Hr as (rows & -> & H3).
  destruct (run_table_reuses_pipelines _ _ _ _ _ _ E) as (_ & Hnext).
  destruct (run_table_shape Scenarios.yes_world shipped None st') as (_ & Hex).
  destruct (Hex yes_world_answering) as (rows2 & st2 & E2).
  exists rows, st', rows2, st2. split; [reflexivity|]. split; [exact E2|].
  split; [exact H3|]. rewrite (Hnext None (Ok rows2) st2 E2). exact H3.
Defined.

(** X18: [run_table] has no handler around its models: when one
    configured model is not in the cache and cannot be loaded, [run_table]
    raises and returns no table, whatever the other models would answer. *)
Theorem run_table_fails_as_a_whole
  (w : world) (cfg : ui_config) (df_input : option (list row)) (st : state)
  (mid pretty : string) (e : exn) :
  In (mid, pretty) (MODELS cfg) ->
  cached mid st = None ->
  load w mid = Some e ->
  exists e' st', run_table w cfg df_input st = (Raise e', st').
Proof.
  intros Hin Hc Hl.
  destruct (run_table w cfg df_input st) as [[rows|e'] st'] eqn:H;
    [exfalso | now exists e', st'].
  rewrite run_table_unfold in H. unfold bind at 1 in H.
  destruct (load_all w (MODELS cfg) st) as [[clfs|e1] st1] eqn:L; [|discriminate].
  destruct (load_all_inv w (MODELS cfg) [] clfs st st1 L) as (_ & _ & _ & Hsrc).
  destruct (Hsrc mid pretty Hin) as [Hm|Hn]; congruence.
Qed.

Lemma run_table_fails_as_a_whole_witness :
  exists st',
    run_table Scenarios.b_fails_world two_ui_models None initial
    = (Raise (LibraryError "no such model"), st').
Proof.
  destruct (run_table_fails_as_a_whole Scenarios.b_fails_world two_ui_models
              None initial "B" "Model B" (LibraryError "no such model"))
    as (e' & st' & E).
  - right. now left.
  - reflexivity.
  - reflexivity.
  - exists st'. rewrite E. f_equal. vm_compute in E. now injection E as <- _.
Defined.

End UITable.

(** * Properties of the prediction endpoint *)

Module AppFacts.
Import PyStr PyStrFacts Py World App.
Local Open Scope string_scope.

Section Endpoint.
Variable w : world.

(** What the guarded inference call of [predict] does. *)
Lemma predict_nonblank (t : string) (st : state) :
  strip t <> "" ->
  predict w t st
  = let st' := mkState (reads st) (S (calls st))
                       (log st ++ [EvCall MODEL_NAME (strip t)])%list (stdout st)
                       (_PIPELINES st) in
    match infer w (calls st) MODEL_NAME (strip t) with
    | Raise e =>
        if is_Exception e then (HTTPException 500 "Inference error", st')
        else (Escaped e, st')
    | Ok [] => (HTTPException 500 "Inference error", st')
    | Ok (o :: _) =>
        match label o with
        | None => (EscapedAttributeError, st')
        | Some l =>
            (Returned
               (mkPredictOut (strip t) (lower l) (score o)
                  (strip t ++ "-" ++ lower l ++ "-" ++ format_4f (score o))),
             st')
        end
    end.
Proof.
  intros Hne. unfold predict.
  destruct (strip t) as [|c u] eqn:S; [congruence|].
  unfold try_except, bind, call, lift, ret.
  destruct (infer w (calls st) MODEL_NAME (String c u)) as [[|o outs]|e];
    cbn; [reflexivity | reflexivity |].
  now destruct (is_Exception e).
Qed.

(** A text that is blank after stripping is answered with 400, and the
    state is as before. *)
Lemma predict_blank (t : string) (st : state) :
  strip t = "" ->
  predict w t st = (HTTPException 400 "Text must not be empty", st).
Proof. intros H. unfold predict. now rewrite H. Qed.

(** X19: when the model raises an [Exception], or returns an empty list,
    the endpoint answers 500 "Inference error"; the model was called once,
    with the stripped text. *)
Theorem inference_failure_is_500 (t : string) (st : state) :
  strip t <> "" ->
  (exists e, infer w (calls st) MODEL_NAME (strip t) = Raise e
             /\ is_Exception e = true)
  \/ infer w (calls st) MODEL_NAME (strip t) = Ok [] ->
  exists st',
    predict w t st = (HTTPException 500 "Inference error", st')
    /\ calls st' = 1 + calls st
    /\ log st' = (log st ++ [EvCall MODEL_NAME (strip t)])%list.
Proof.
  intros Hne H. rewrite (predict_nonblank t st Hne). cbv zeta.
  destruct H as [(e & -> & ->)| ->]; eexists; (split; [reflexivity|]);
    now split.
Qed.

(** X20: every response body of [predict] carries the stripped request
    text, which is not empty; its sentiment is the label of the first
    prediction in lower case, nothing more; its summary is
    text-sentiment-confidence with the confidence in four decimals; and the
    model was called exactly once, with the stripped text.  Such a body is
    returned whenever the text is not blank and the model returns a
    labelled prediction. *)
Theorem predict_response (t : string) (st : state) :
  (forall out st',
      predict w t st = (Returned out, st') ->
      text out = strip t
      /\ text out <> ""
      /\ strip (text out) = text out
      /\ lower (sentiment out) = sentiment out
      /\ summary out
         = text out ++ "-" ++ sentiment out ++ "-" ++ format_4f (confidence out)
      /\ (exists o outs l,
             infer w (calls st) MODEL_NAME (strip t) = Ok (o :: outs)
             /\ label o = Some l
             /\ sentiment out = lower l
             /\ confidence out = score o)
      /\ log st' = (log st ++ [EvCall MODEL_NAME (strip t)])%list)
  /\ (forall o outs l,
         strip t <> "" ->
         infer w (calls st) MODEL_NAME (strip t) = Ok (o :: outs) ->
         label o = Some l ->
         exists out st', predict w t st = (Returned out, st')).
Proof.
  split.
  - intros out st' H.
    destruct (string_dec (strip t) "") as [E|Hne].
    { rewrite (predict_blank t st E) in H. discriminate. }
    rewrite (predict_nonblank t st Hne) in H. cbv zeta in H.
    destruct (infer w (calls st) MODEL_NAME (strip t)) as [[|o outs]|e] eqn:I.
    + discriminate.
    + destruct (label o) as [l|] eqn:L; [|discriminate].
      injection H as <- <-. cbn [text sentiment confidence summary log].
      split; [reflexivity|]. split; [exact Hne|].
      split; [apply strip_idem|]. split; [apply lower_idem|].
      split; [reflexivity|]. split; [|reflexivity].
      exists o, outs, l. now repeat split.
    + destruct (is_Exception e); discriminate.
  - intros o outs l Hne I L. rewrite (predict_nonblank t st Hne). cbv zeta.
    rewrite I, L. eexists. eexists. reflexivity.
Qed.

(** X21: validation comes before the endpoint.  A text that is empty or
    longer than 2000 characters is answered with 422 even if it is all
    white space; a text of 1 to 2000 characters that is all white space is
    answered with 400 "Text must not be empty"; the model is called, once,
    only for a text of 1 to 2000 characters that is not blank. *)
Theorem request_triage (t : string) (st : state) :
  ((String.length t = 0 \/ 2000 < String.length t) ->
   post_predict w t st = (Invalid422, st))
  /\ (1 <= String.length t <= 2000 -> all_space t = true ->
      post_predict w t st = (HTTPException 400 "Text must not be empty", st))
  /\ (forall r st',
         post_predict w t st = (r, st') ->
         calls st' <> calls st ->
         1 <= String.length t <= 2000 /\ strip t <> "" /\ calls st' = 1 + calls st).
Proof.
  unfold post_predict, valid_text. split; [|split].
  - intros [H|H].
    + rewrite H. reflexivity.
    + assert (E : (String.length t <=? 2000)%nat = false) by (apply Nat.leb_gt; lia).
      rewrite E, andb_false_r. reflexivity.
  - intros [H1 H2] Hs.
    assert (E1 : (1 <=? String.length t)%nat = true) by (apply Nat.leb_le; lia).
    assert (E2 : (String.length t <=? 2000)%nat = true) by (apply Nat.leb_le; lia).
    rewrite E1, E2. cbn [andb]. apply predict_blank. unfold strip. rewrite (all_space_lstrip t Hs). reflexivity.
  - intros r st' H Hc.
    destruct ((1 <=? String.length t)%nat && (String.length t <=? 2000)%nat) eqn:V.
    2:{ injection H as _ <-. congruence. }
    apply andb_true_iff in V. destruct V as [V1 V2].
    apply Nat.leb_le in V1. apply Nat.leb_le in V2.
    split; [lia|].
    destruct (string_dec (strip t) "") as [E|Hne].
    { rewrite (predict_blank t st E) in H. injection H as _ <-.
      congruence. }
    split; [exact Hne|].
    rewrite (predict_nonblank t st Hne) in H. cbv zeta in H.
    destruct (infer w (calls st) MODEL_NAME (strip t)) as [[|o outs]|e].
    + now injection H as _ <-.
    + destruct (label o); now injection H as _ <-.
    + destruct (is_Exception e); now injection H as _ <-.
Qed.

End Endpoint.

Lemma inference_failure_is_500_witness :
  exists st',
    predict Scenarios.cold_world " warmup " initial
    = (HTTPException 500 "Inference error", st')
    /\ calls st' = 1.
Proof.
  destruct (inference_failure_is_500 Scenarios.cold_world " warmup " initial)
    as (st' & E & C & _).
  - discriminate.
  - left. exists (LibraryError "cold start"). split; reflexivity.
  - exists st'. split; [exact E | exact C].
Defined.

Lemma predict_response_witness :
  exists st',
    predict Scenarios.yes_world "  I love it  " initial
    = (Returned (mkPredictOut "I love it" "positive" (Qmake 9 10)
                   "I love it-positive-0.9000"), st').
Proof.
  destruct (predict_response Scenarios.yes_world "  I love it  " initial)
    as (Hall & Hex).
  destruct (Hex (mkRaw (Some "POSITIVE") (Qmake 9 10)) [] "POSITIVE")
    as (out & st' & E); [discriminate | reflexivity | reflexivity |].
  exists st'. rewrite E. f_equal. f_equal.
  vm_compute in E. now injection E as <- _.
Defined.

Lemma request_triage_witness :
  post_predict Scenarios.yes_world "" initial = (Invalid422, initial)
  /\ post_predict Scenarios.yes_world "   " initial
     = (HTTPException 400 "Text must not be empty", initial).
Proof.
  destruct (request_triage Scenarios.yes_world "" initial) as (H1 & _).
  destruct (request_triage Scenarios.yes_world "   " initial) as (_ & H2 & _).
  split.
  - apply H1. now left.
  - apply H2; [cbn; lia | reflexivity].
Defined.

End AppFacts.
